(** * FastPlanner weather proxy: a shallow embedding of the Anvil proxy code

    The development follows the Python sources of [anvil-weather-proxy]:
    - [main.py]: the in-memory rate limiter, the [requests]-based forwarder
      and the four callable proxies;
    - [client_code.py]: the HTTP route that relays a callable's result;
    - [server_code_fixed.py] and [server_code_correct.py]: the
      [http_endpoint] handlers that build the upstream URL themselves.

    Python values are modelled as follows.  A [str] is a [string] whose
    characters are read as code points below 256.  A [dict] with string keys
    whose iteration order matters ([kwargs], [query_params]) is an
    association list in insertion order.  The process-global [request_cache]
    is a [gmap] from client keys to lists of timestamps.  A reading of
    [time.time()] is an explicit argument [now], an integer number of
    seconds.  An outbound HTTP call is an explicit node [Call] carrying the
    requested URL and a continuation over the outcome of the call. *)

From Stdlib Require Import ZArith Ascii Bool Lia.
From stdpp Require Import gmap strings list fin_maps.

(** ** Python strings, dictionaries and [json.dumps] *)

Module Py.

(** [s.startswith(p)] *)
Definition startswith (s p : string) : bool := String.prefix p s.

(** [needle in hay] on strings *)
Fixpoint py_in (needle hay : string) : bool :=
  String.prefix needle hay ||
  match hay with
  | EmptyString => false
  | String _ hay' => py_in needle hay'
  end.

(** Truth value of a string: [not s] holds exactly for the empty string. *)
Definition truthy (s : string) : bool :=
  match s with
  | EmptyString => false
  | String _ _ => true
  end.

(** [c.lower()] on one code point below 256: the letters A-Z, and the
    Latin-1 capitals U+00C0..U+00DE except the multiplication sign. *)
Definition lower_char (c : ascii) : ascii :=
  let n := N_of_ascii c in
  if ((65 <=? n) && (n <=? 90))%N then ascii_of_N (n + 32)
  else if ((192 <=? n) && (n <=? 222) && negb (n =? 215))%N
       then ascii_of_N (n + 32)
       else c.

(** [s.lower()] *)
Fixpoint lower (s : string) : string :=
  match s with
  | EmptyString => EmptyString
  | String c s' => String (lower_char c) (lower s')
  end.

(** [sep.join(parts)] *)
Fixpoint join (sep : string) (parts : list string) : string :=
  match parts with
  | [] => ""
  | [p] => p
  | p :: rest => p +:+ sep +:+ join sep rest
  end.

(** A [dict] from strings to strings, in insertion order. *)
Abbreviation dict := (list (string * string)).

(** [d.get(key, default)] *)
Fixpoint get (d : dict) (key default : string) : string :=
  match d with
  | [] => default
  | (k, v) :: d' => if String.eqb k key then v else get d' key default
  end.

(** [key in d] *)
Fixpoint has_key (d : dict) (key : string) : bool :=
  match d with
  | [] => false
  | (k, _) :: d' => String.eqb k key || has_key d' key
  end.

(** [d[key] = value]: an existing key keeps its position, a new key goes
    to the end. *)
Fixpoint setitem (d : dict) (key value : string) : dict :=
  match d with
  | [] => [(key, value)]
  | (k, v) :: d' =>
      if String.eqb k key then (k, value) :: d' else (k, v) :: setitem d' key value
  end.

(** The double quote and the backslash, by code point. *)
Definition dquote : ascii := ascii_of_N 34.
Definition backslash : ascii := ascii_of_N 92.

Definition hex_digit (n : N) : ascii :=
  if (n <? 10)%N then ascii_of_N (48 + n) else ascii_of_N (87 + n).

(** [json.dumps] of one character of a string ([ensure_ascii] is on):
    short escapes for the quote, the backslash and five control characters,
    the character itself from the space to the tilde, and a [\u00xx]
    escape for any other code point below 256. *)
Definition json_escape_char (c : ascii) : string :=
  let n := N_of_ascii c in
  if (n =? 34)%N then String backslash (String dquote "")
  else if (n =? 92)%N then String backslash (String backslash "")
  else if (n =? 10)%N then String backslash "n"
  else if (n =? 13)%N then String backslash "r"
  else if (n =? 9)%N then String backslash "t"
  else if (n =? 8)%N then String backslash "b"
  else if (n =? 12)%N then String backslash "f"
  else if ((32 <=? n) && (n <=? 126))%N then String c ""
  else String backslash
         ("u00" +:+ String (hex_digit (n / 16)) (String (hex_digit (n mod 16)) "")).

Fixpoint json_escape (s : string) : string :=
  match s with
  | EmptyString => ""
  | String c s' => json_escape_char c +:+ json_escape s'
  end.

(** [json.dumps(s)] for a string [s] *)
Definition json_string (s : string) : string :=
  String dquote (json_escape s +:+ String dquote "").

(** [json.dumps(d)] for a dict of strings, with the default separators *)
Definition json_dumps (d : dict) : string :=
  "{" +:+ join ", " (map (fun kv => json_string kv.1 +:+ ": " +:+ json_string kv.2) d)
      +:+ "}".

End Py.

(** ** Outbound HTTP calls

    A handler either answers at once ([Ret]) or performs one outbound GET
    ([Call]) with the given URL, request headers and timeout, and answers
    from the outcome [O] of that call. *)

Inductive io (O R : Type) : Type :=
| Ret (r : R)
| Call (url : string) (request_headers : Py.dict) (timeout : Z) (k : O → R).

Arguments Ret {O R} r.
Arguments Call {O R} url request_headers timeout k.

(** The answer of a handler when the network behaves as [net]. *)
Definition run {O R : Type} (net : string → O) (m : io O R) : R :=
  match m with
  | Ret r => r
  | Call url _ _ k => k (net url)
  end.

(** The URL a handler requests upstream, if it requests one. *)
Definition outbound_url {O R : Type} (m : io O R) : option string :=
  match m with
  | Ret _ => None
  | Call url _ _ _ => Some url
  end.

(** ** [main.py] *)

Module Main.
Import Py.
Local Open Scope Z_scope.

Definition RATE_LIMIT_WINDOW : Z := 900.
Definition RATE_LIMIT_MAX : Z := 1000.

(** The window of a client: [request_cache.get(client_ip, [])]. *)
Abbreviation window c client_ip := (default [] (c !! client_ip)).

(** The test of the pruning comprehension: a timestamp is kept at clock
    reading [now] when [now - req_time < RATE_LIMIT_WINDOW]. *)
Abbreviation live now := (λ req_time : Z, now - req_time < RATE_LIMIT_WINDOW).

(** [rate_limit_check(client_ip)], with the reading [now] of the clock and
    the global [request_cache] made explicit.  It returns the verdict and
    the cache it leaves behind. *)
Definition rate_limit_check (client_ip : string) (now : Z)
    (request_cache : gmap string (list Z)) : bool * gmap string (list Z) :=
  let request_cache :=
    <[client_ip :=
        filter (λ req_time, now - req_time < RATE_LIMIT_WINDOW)
               (default [] (request_cache !! client_ip))]> request_cache in
  if bool_decide (RATE_LIMIT_MAX ≤ Z.of_nat (length (default [] (request_cache !! client_ip))))
  then (false, request_cache)
  else
    let request_cache :=
      match request_cache !! client_ip with
      | Some _ => request_cache
      | None => <[client_ip := []]> request_cache
      end in
    (true,
     <[client_ip := default [] (request_cache !! client_ip) ++ [now]]> request_cache).

(** The dictionaries the callables return. *)
Record proxy_result : Type := ProxyResult {
  status : Z;
  content : string;
  headers : dict;
  success : bool
}.

(** What [requests.get] does: it returns a response, or raises
    [requests.exceptions.Timeout], or raises another
    [requests.exceptions.RequestException] whose [str(e)] is [e]. *)
Inductive get_outcome : Type :=
| Response (status_code : Z) (text : string) (response_headers : dict)
| Timeout
| RequestException (e : string).

Definition default_timeout : Z := 30.

(** [make_proxy_request(target_url, timeout=30)] *)
Definition make_proxy_request (target_url : string) (timeout : Z)
    : io get_outcome proxy_result :=
  let headers :=
    [("User-Agent", "FastPlanner-Weather-Proxy/1.0 (Aviation Weather Service)");
     ("Accept", "application/json, text/plain, */*");
     ("Accept-Encoding", "gzip, deflate");
     ("Connection", "keep-alive")] in
  Call target_url headers timeout (λ outcome,
    match outcome with
    | Response status_code text response_headers =>
        {| status := status_code;
           content := text;
           headers := response_headers;
           success := true |}
    | Timeout =>
        {| status := 408;
           content := json_dumps [("error", "Request timeout"); ("service", "weather")];
           headers := [("Content-Type", "application/json")];
           success := false |}
    | RequestException e =>
        {| status := 500;
           content := json_dumps [("error", e); ("service", "weather")];
           headers := [("Content-Type", "application/json")];
           success := false |}
    end).

(** [proxy_noaa_weather(path, client_ip)] *)
Definition proxy_noaa_weather (path client_ip : string) (now : Z)
    (request_cache : gmap string (list Z))
    : io get_outcome proxy_result * gmap string (list Z) :=
  let '(allowed, request_cache) := rate_limit_check client_ip now request_cache in
  if negb allowed then
    (Ret {| status := 429;
            content := json_dumps [("error", "Rate limit exceeded"); ("service", "NOAA")];
            headers := [("Content-Type", "application/json")];
            success := false |},
     request_cache)
  else
    let target_url := "https://nowcoast.noaa.gov/" +:+ path in
    (make_proxy_request target_url default_timeout, request_cache).

(** [proxy_aviation_weather(path, client_ip)] *)
Definition proxy_aviation_weather (path client_ip : string) (now : Z)
    (request_cache : gmap string (list Z))
    : io get_outcome proxy_result * gmap string (list Z) :=
  let '(allowed, request_cache) := rate_limit_check client_ip now request_cache in
  if negb allowed then
    (Ret {| status := 429;
            content := json_dumps [("error", "Rate limit exceeded"); ("service", "AWC")];
            headers := [("Content-Type", "application/json")];
            success := false |},
     request_cache)
  else
    let target_url := "https://aviationweather.gov/" +:+ path in
    (make_proxy_request target_url default_timeout, request_cache).

(** [proxy_buoy_data(path, client_ip)] *)
Definition proxy_buoy_data (path client_ip : string) (now : Z)
    (request_cache : gmap string (list Z))
    : io get_outcome proxy_result * gmap string (list Z) :=
  let '(allowed, request_cache) := rate_limit_check client_ip now request_cache in
  if negb allowed then
    (Ret {| status := 429;
            content := json_dumps [("error", "Rate limit exceeded"); ("service", "BUOY")];
            headers := [("Content-Type", "application/json")];
            success := false |},
     request_cache)
  else
    let target_url := "https://www.ndbc.noaa.gov/" +:+ path in
    (make_proxy_request target_url default_timeout, request_cache).

(** [proxy_lightning_data(path, client_ip)] *)
Definition proxy_lightning_data (path client_ip : string) (now : Z)
    (request_cache : gmap string (list Z))
    : io get_outcome proxy_result * gmap string (list Z) :=
  let '(allowed, request_cache) := rate_limit_check client_ip now request_cache in
  if negb allowed then
    (Ret {| status := 429;
            content := json_dumps [("error", "Rate limit exceeded"); ("service", "LIGHTNING")];
            headers := [("Content-Type", "application/json")];
            success := false |},
     request_cache)
  else
    let target_url :=
      "https://nowcoast.noaa.gov/geoserver/observations/lightning_detection/ows" +:+ path in
    (make_proxy_request target_url default_timeout, request_cache).

(** The dictionary of [get_weather_stats()]; [timestamp] is the reading
    [datetime.now().isoformat()]. *)
Record weather_stats : Type := WeatherStats {
  active_clients : nat;
  total_requests : nat;
  cache_size : nat;
  rate_limit_window : Z;
  rate_limit_max : Z;
  timestamp : string
}.

Definition get_weather_stats (timestamp : string)
    (request_cache : gmap string (list Z)) : weather_stats :=
  {| active_clients := size request_cache;
     total_requests :=
       map_fold (λ _ (requests : list Z) acc, (length requests + acc)%nat) 0%nat request_cache;
     cache_size := size request_cache;
     rate_limit_window := RATE_LIMIT_WINDOW;
     rate_limit_max := RATE_LIMIT_MAX;
     timestamp := timestamp |}.

(** A client sending one request after another: the verdicts of
    [rate_limit_check] for the clock readings [times], oldest first, and
    the cache afterwards. *)
Fixpoint rate_limit_checks (client_ip : string) (times : list Z)
    (request_cache : gmap string (list Z)) : list bool * gmap string (list Z) :=
  match times with
  | [] => ([], request_cache)
  | now :: times' =>
      let '(allowed, request_cache) := rate_limit_check client_ip now request_cache in
      let '(verdicts, request_cache) := rate_limit_checks client_ip times' request_cache in
      (allowed :: verdicts, request_cache)
  end.


End Main.

(** ** The Anvil runtime interface *)

Module Anvil.
Import Py.

(** [HttpResponse(status, body, headers)]; a response built without a
    [headers] argument has none. *)
Record HttpResponse : Type := mkHttpResponse {
  status : Z;
  body : string;
  headers : dict
}.

(** What [anvil.http.request(url, method="GET", timeout=60)] does: it
    returns the body of the upstream response, whose status code the
    caller never sees, or it raises an exception whose [str(e)] is [e]. *)
Inductive request_outcome : Type :=
| Returned (upstream_status : Z) (response : string)
| Raised (e : string).

(** What [anvil.server.call(name, ...)] does: it hands back the value the
    server function returned, or it raises. *)
Inductive call_outcome (A : Type) : Type :=
| CallReturned (result : A)
| CallRaised (e : string).

Arguments CallReturned {A} result.
Arguments CallRaised {A} e.

(** [name in response.headers] *)
Definition has_header (name : string) (r : HttpResponse) : bool :=
  has_key (headers r) name.

End Anvil.

(** ** [client_code.py] *)

Module ClientCode.
Import Py Anvil.

(** [noaa_proxy_endpoint()]: [query_params] and [remote_addr] are those of
    [anvil.http.request]; [server_call path client_ip] stands for
    [anvil.server.call('proxy_noaa_weather', path, client_ip)]. *)
Definition noaa_proxy_endpoint (query_params : dict) (remote_addr : option string)
    (server_call : string → string → call_outcome Main.proxy_result)
    : HttpResponse :=
  let path := get query_params "path" "" in
  let client_ip :=
    match remote_addr with
    | Some addr => if truthy addr then addr else "unknown"
    | None => "unknown"
    end in
  match server_call path client_ip with
  | CallReturned result =>
      {| body := Main.content result;
         status := Main.status result;
         headers :=
           [("Content-Type", get (Main.headers result) "Content-Type" "application/json");
            ("Access-Control-Allow-Origin", "*");
            ("Access-Control-Allow-Methods", "GET, POST, OPTIONS");
            ("Access-Control-Allow-Headers", "Content-Type, Authorization")] |}
  | CallRaised e =>
      {| body := json_dumps [("error", e); ("service", "NOAA")];
         status := 500;
         headers := [("Content-Type", "application/json")] |}
  end.

(** The server side of that call when it is served by [main.py]: the
    callable runs at clock reading [now] on [request_cache], and the
    network answers its outbound request as [net] says. *)
Definition call_proxy_noaa_weather (net : string → Main.get_outcome) (now : Z)
    (request_cache : gmap string (list Z)) (path client_ip : string)
    : call_outcome Main.proxy_result :=
  CallReturned (run net (Main.proxy_noaa_weather path client_ip now request_cache).1).

End ClientCode.

(** ** [server_code_fixed.py] *)

Module ServerCodeFixed.
Import Py Anvil.

(** [proxy_noaa_weather], called with the keyword arguments [kwargs] *)
Definition proxy_noaa_weather (kwargs : dict) : io request_outcome HttpResponse :=
  let service_path := get kwargs "path" "" in
  if negb (truthy service_path) then
    Ret (mkHttpResponse 400 "Missing 'path' parameter" [])
  else
    let base_url := "https://nowcoast.noaa.gov" in
    let service_path :=
      if negb (startswith service_path "/") then "/" +:+ service_path
      else service_path in
    let request_url := base_url +:+ service_path in
    let query_params :=
      (λ kv, kv.1 +:+ "=" +:+ kv.2) <$> filter (λ kv, kv.1 ≠ "path") kwargs in
    let request_url :=
      match query_params with
      | [] => request_url
      | _ => request_url +:+ (if py_in "?" request_url then "&" else "?")
                         +:+ join "&" query_params
      end in
    Call request_url [] 60 (λ outcome,
      match outcome with
      | Returned _ response =>
          let content_type :=
            if py_in "wms" (lower request_url) || py_in "getmap" (lower request_url)
            then "image/png"
            else if py_in "xml" (lower request_url)
                    || py_in "capabilities" (lower request_url)
                 then "application/xml"
                 else "application/json" in
          mkHttpResponse 200 response
            [("Content-Type", content_type);
             ("Access-Control-Allow-Origin", "*");
             ("Access-Control-Allow-Methods", "GET, POST, OPTIONS");
             ("Access-Control-Allow-Headers",
              "Content-Type, Authorization, X-Requested-With")]
      | Raised e => mkHttpResponse 500 e []
      end).

(** [proxy_aviation_weather], called with the keyword arguments [kwargs] *)
Definition proxy_aviation_weather (kwargs : dict) : io request_outcome HttpResponse :=
  let service_path := get kwargs "path" "" in
  if negb (truthy service_path) then
    Ret (mkHttpResponse 400 "Missing 'path' parameter" [])
  else
    let base_url := "https://aviationweather.gov" in
    let service_path :=
      if negb (startswith service_path "/") then "/" +:+ service_path
      else service_path in
    let request_url := base_url +:+ service_path in
    let query_params :=
      (λ kv, kv.1 +:+ "=" +:+ kv.2) <$> filter (λ kv, kv.1 ≠ "path") kwargs in
    let request_url :=
      match query_params with
      | [] => request_url
      | _ => request_url +:+ (if py_in "?" request_url then "&" else "?")
                         +:+ join "&" query_params
      end in
    Call request_url [] 60 (λ outcome,
      match outcome with
      | Returned _ response =>
          mkHttpResponse 200 response
            [("Content-Type", "application/json");
             ("Access-Control-Allow-Origin", "*");
             ("Access-Control-Allow-Methods", "GET, POST, OPTIONS");
             ("Access-Control-Allow-Headers",
              "Content-Type, Authorization, X-Requested-With")]
      | Raised e => mkHttpResponse 500 e []
      end).

(** [proxy_buoy_weather], called with the keyword arguments [kwargs] *)
Definition proxy_buoy_weather (kwargs : dict) : io request_outcome HttpResponse :=
  let service_path := get kwargs "path" "" in
  if negb (truthy service_path) then
    Ret (mkHttpResponse 400 "Missing 'path' parameter" [])
  else
    let base_url := "https://www.ndbc.noaa.gov" in
    let service_path :=
      if negb (startswith service_path "/") then "/" +:+ service_path
      else service_path in
    let request_url := base_url +:+ service_path in
    Call request_url [] 60 (λ outcome,
      match outcome with
      | Returned _ response =>
          mkHttpResponse 200 response
            [("Content-Type", "text/plain");
             ("Access-Control-Allow-Origin", "*");
             ("Access-Control-Allow-Methods", "GET, POST, OPTIONS");
             ("Access-Control-Allow-Headers",
              "Content-Type, Authorization, X-Requested-With")]
      | Raised e => mkHttpResponse 500 e []
      end).

(** [proxy_lightning_weather], called with the keyword arguments [kwargs] *)
Definition proxy_lightning_weather (kwargs : dict) : io request_outcome HttpResponse :=
  let base_url :=
    "https://nowcoast.noaa.gov/geoserver/observations/lightning_detection/ows" in
  let request_url := base_url in
  let query_params := (λ kv, kv.1 +:+ "=" +:+ kv.2) <$> kwargs in
  let request_url :=
    match query_params with
    | [] => request_url
    | _ => request_url +:+ "?" +:+ join "&" query_params
    end in
  Call request_url [] 60 (λ outcome,
    match outcome with
    | Returned _ response =>
        let content_type :=
          if py_in "getmap" (lower request_url) then "image/png"
          else "application/xml" in
        mkHttpResponse 200 response
          [("Content-Type", content_type);
           ("Access-Control-Allow-Origin", "*");
           ("Access-Control-Allow-Methods", "GET, POST, OPTIONS");
           ("Access-Control-Allow-Headers",
            "Content-Type, Authorization, X-Requested-With")]
    | Raised e => mkHttpResponse 500 e []
    end).

End ServerCodeFixed.

(** ** [server_code_correct.py] *)

Module ServerCodeCorrect.
Import Py Anvil.

(** [proxy_noaa_weather], called with the keyword arguments [kwargs] *)
Definition proxy_noaa_weather (kwargs : dict) : io request_outcome HttpResponse :=
  let service_path := get kwargs "path" "" in
  if negb (truthy service_path) then
    Ret (mkHttpResponse 400 "Missing 'path' parameter" [])
  else
    let base_url := "https://nowcoast.noaa.gov" in
    let service_path :=
      if negb (startswith service_path "/") then "/" +:+ service_path
      else service_path in
    let request_url := base_url +:+ service_path in
    let query_params :=
      (λ kv, kv.1 +:+ "=" +:+ kv.2) <$> filter (λ kv, kv.1 ≠ "path") kwargs in
    let request_url :=
      match query_params with
      | [] => request_url
      | _ => request_url +:+ (if py_in "?" request_url then "&" else "?")
                         +:+ join "&" query_params
      end in
    Call request_url [] 60 (λ outcome,
      match outcome with
      | Returned _ response =>
          let content_type :=
            if py_in "wms" (lower request_url) || py_in "getmap" (lower request_url)
            then "image/png"
            else if py_in "xml" (lower request_url)
                    || py_in "capabilities" (lower request_url)
                 then "application/xml"
                 else "application/json" in
          mkHttpResponse 200 response
            [("Content-Type", content_type);
             ("Access-Control-Allow-Origin", "http://localhost:8080");
             ("Cache-Control", "no-cache")]
      | Raised error_msg => mkHttpResponse 500 error_msg []
      end).

(** [proxy_aviation_weather], called with the keyword arguments [kwargs] *)
Definition proxy_aviation_weather (kwargs : dict) : io request_outcome HttpResponse :=
  let service_path := get kwargs "path" "" in
  if negb (truthy service_path) then
    Ret (mkHttpResponse 400 "Missing 'path' parameter" [])
  else
    let base_url := "https://aviationweather.gov" in
    let service_path :=
      if negb (startswith service_path "/") then "/" +:+ service_path
      else service_path in
    let request_url := base_url +:+ service_path in
    let query_params :=
      (λ kv, kv.1 +:+ "=" +:+ kv.2) <$> filter (λ kv, kv.1 ≠ "path") kwargs in
    let request_url :=
      match query_params with
      | [] => request_url
      | _ => request_url +:+ (if py_in "?" request_url then "&" else "?")
                         +:+ join "&" query_params
      end in
    Call request_url [] 60 (λ outcome,
      match outcome with
      | Returned _ response =>
          mkHttpResponse 200 response
            [("Content-Type", "application/json");
             ("Access-Control-Allow-Origin", "http://localhost:8080");
             ("Cache-Control", "no-cache")]
      | Raised error_msg => mkHttpResponse 500 error_msg []
      end).

(** [proxy_buoy_weather], called with the keyword arguments [kwargs] *)
Definition proxy_buoy_weather (kwargs : dict) : io request_outcome HttpResponse :=
  let service_path := get kwargs "path" "" in
  if negb (truthy service_path) then
    Ret (mkHttpResponse 400 "Missing 'path' parameter" [])
  else
    let base_url := "https://www.ndbc.noaa.gov" in
    let service_path :=
      if negb (startswith service_path "/") then "/" +:+ service_path
      else service_path in
    let request_url := base_url +:+ service_path in
    let query_params :=
      (λ kv, kv.1 +:+ "=" +:+ kv.2) <$> filter (λ kv, kv.1 ≠ "path") kwargs in
    let request_url :=
      match query_params with
      | [] => request_url
      | _ => request_url +:+ (if py_in "?" request_url then "&" else "?")
                         +:+ join "&" query_params
      end in
    Call request_url [] 60 (λ outcome,
      match outcome with
      | Returned _ response =>
          mkHttpResponse 200 response
            [("Content-Type", "text/plain");
             ("Access-Control-Allow-Origin", "http://localhost:8080");
             ("Cache-Control", "no-cache")]
      | Raised error_msg => mkHttpResponse 500 error_msg []
      end).

(** [proxy_lightning_weather], called with the keyword arguments [kwargs] *)
Definition proxy_lightning_weather (kwargs : dict) : io request_outcome HttpResponse :=
  let service_path := get kwargs "path" "" in
  if negb (truthy service_path) then
    Ret (mkHttpResponse 400 "Missing 'path' parameter" [])
  else
    let base_url :=
      "https://nowcoast.noaa.gov/geoserver/observations/lightning_detection/ows" in
    let request_url := base_url in
    let query_params :=
      (λ kv, kv.1 +:+ "=" +:+ kv.2) <$> filter (λ kv, kv.1 ≠ "path") kwargs in
    let request_url :=
      match query_params with
      | [] => request_url
      | _ => request_url +:+ "?" +:+ join "&" query_params
      end in
    Call request_url [] 60 (λ outcome,
      match outcome with
      | Returned _ response =>
          let content_type :=
            if py_in "getmap" (lower request_url) then "image/png"
            else "application/xml" in
          mkHttpResponse 200 response
            [("Content-Type", content_type);
             ("Access-Control-Allow-Origin", "http://localhost:8080");
             ("Cache-Control", "no-cache")]
      | Raised error_msg => mkHttpResponse 500 error_msg []
      end).

End ServerCodeCorrect.

(** The [http_endpoint] handlers that take a remainder path, in both
    variants of the server code. *)
Definition remainder_path_handlers
    : list (Py.dict → io Anvil.request_outcome Anvil.HttpResponse) :=
  [ServerCodeFixed.proxy_noaa_weather;
   ServerCodeFixed.proxy_aviation_weather;
   ServerCodeFixed.proxy_buoy_weather;
   ServerCodeCorrect.proxy_noaa_weather;
   ServerCodeCorrect.proxy_aviation_weather;
   ServerCodeCorrect.proxy_buoy_weather].

(** The four routed handlers of [server_code_fixed.py]. *)
Definition fixed_handlers
    : list (Py.dict → io Anvil.request_outcome Anvil.HttpResponse) :=
  [ServerCodeFixed.proxy_noaa_weather;
   ServerCodeFixed.proxy_aviation_weather;
   ServerCodeFixed.proxy_buoy_weather;
   ServerCodeFixed.proxy_lightning_weather].

(** ** The forwarding rule in the words of the specification *)

Module Spec.
Import Py.

(** The inbound query parameters that are forwarded: each one except
    [path], written [key=value]. *)
Definition forwarded_params (inbound : dict) : list string :=
  (λ kv, kv.1 +:+ "=" +:+ kv.2) <$> filter (λ kv, kv.1 ≠ "path") inbound.

(** The parameters are joined with [&] and appended after [?] if the URL
    has no query string yet, after [&] otherwise; nothing is appended when
    there is no parameter. *)
Definition append_query (url : string) (params : list string) : string :=
  match params with
  | [] => url
  | _ => url +:+ (if py_in "?" url then "&" else "?") +:+ join "&" params
  end.

(** A remainder path with one slash put in front unless it has one. *)
Definition with_leading_slash (path : string) : string :=
  if startswith path "/" then path else "/" +:+ path.

End Spec.

(** ** The other routes of [client_code.py] *)

Module ClientRoutes.
Import Py Anvil.

(** [awc_proxy_endpoint(path)]: the path comes from the route, and
    [server_call path client_ip] stands for
    [anvil.server.call('proxy_aviation_weather', path, client_ip)]. *)
Definition awc_proxy_endpoint (path : string) (remote_addr : option string)
    (server_call : string → string → call_outcome Main.proxy_result)
    : HttpResponse :=
  let client_ip :=
    match remote_addr with
    | Some addr => if truthy addr then addr else "unknown"
    | None => "unknown"
    end in
  match server_call path client_ip with
  | CallReturned result =>
      {| body := Main.content result;
         status := Main.status result;
         headers :=
           [("Content-Type", get (Main.headers result) "Content-Type" "application/json");
            ("Access-Control-Allow-Origin", "*");
            ("Access-Control-Allow-Methods", "GET, POST, OPTIONS");
            ("Access-Control-Allow-Headers", "Content-Type, Authorization")] |}
  | CallRaised e =>
      {| body := json_dumps [("error", e); ("service", "AWC")];
         status := 500;
         headers := [("Content-Type", "application/json")] |}
  end.

(** [buoy_proxy_endpoint(path)], over
    [anvil.server.call('proxy_buoy_data', path, client_ip)] *)
Definition buoy_proxy_endpoint (path : string) (remote_addr : option string)
    (server_call : string → string → call_outcome Main.proxy_result)
    : HttpResponse :=
  let client_ip :=
    match remote_addr with
    | Some addr => if truthy addr then addr else "unknown"
    | None => "unknown"
    end in
  match server_call path client_ip with
  | CallReturned result =>
      {| body := Main.content result;
         status := Main.status result;
         headers :=
           [("Content-Type", get (Main.headers result) "Content-Type" "text/plain");
            ("Access-Control-Allow-Origin", "*");
            ("Access-Control-Allow-Methods", "GET, POST, OPTIONS");
            ("Access-Control-Allow-Headers", "Content-Type, Authorization")] |}
  | CallRaised e =>
      {| body := json_dumps [("error", e); ("service", "BUOY")];
         status := 500;
         headers := [("Content-Type", "application/json")] |}
  end.

(** [lightning_proxy_endpoint(path)], over
    [anvil.server.call('proxy_lightning_data', path, client_ip)] *)
Definition lightning_proxy_endpoint (path : string) (remote_addr : option string)
    (server_call : string → string → call_outcome Main.proxy_result)
    : HttpResponse :=
  let client_ip :=
    match remote_addr with
    | Some addr => if truthy addr then addr else "unknown"
    | None => "unknown"
    end in
  match server_call path client_ip with
  | CallReturned result =>
      {| body := Main.content result;
         status := Main.status result;
         headers :=
           [("Content-Type", get (Main.headers result) "Content-Type" "application/xml");
            ("Access-Control-Allow-Origin", "*");
            ("Access-Control-Allow-Methods", "GET, POST, OPTIONS");
            ("Access-Control-Allow-Headers", "Content-Type, Authorization")] |}
  | CallRaised e =>
      {| body := json_dumps [("error", e); ("service", "LIGHTNING")];
         status := 500;
         headers := [("Content-Type", "application/json")] |}
  end.

(** The server side of a call when it is served by a callable of
    [main.py]: the callable runs at clock reading [now] on
    [request_cache], and the network answers its outbound request as
    [net] says. *)
Definition served_by
    (callable : string → string → Z → gmap string (list Z)
                → io Main.get_outcome Main.proxy_result * gmap string (list Z))
    (net : string → Main.get_outcome) (now : Z)
    (request_cache : gmap string (list Z)) (path client_ip : string)
    : call_outcome Main.proxy_result :=
  CallReturned (run net (callable path client_ip now request_cache).1).

(** [anvil.http.request.remote_addr or 'unknown'], the key under which
    each route has the request counted. *)
Definition client_ip_of (remote_addr : option string) : string :=
  match remote_addr with
  | Some addr => if truthy addr then addr else "unknown"
  | None => "unknown"
  end.

(** A route of [client_code.py]: its endpoint as a function of the path,
    the callable of [main.py] it calls, the text that callable puts in
    front of the path, and the content type the endpoint falls back to. *)
Record route : Type := Route {
  endpoint : string → option string
             → (string → string → call_outcome Main.proxy_result) → HttpResponse;
  callable : string → string → Z → gmap string (list Z)
             → io Main.get_outcome Main.proxy_result * gmap string (list Z);
  prefix : string;
  fallback_content_type : string
}.

(** The four routes.  The first endpoint reads its path from the query
    parameters and no other parameter. *)
Definition routes : list route :=
  [Route (λ path, ClientCode.noaa_proxy_endpoint [("path", path)])
         Main.proxy_noaa_weather "https://nowcoast.noaa.gov/" "application/json";
   Route awc_proxy_endpoint
         Main.proxy_aviation_weather "https://aviationweather.gov/" "application/json";
   Route buoy_proxy_endpoint
         Main.proxy_buoy_data "https://www.ndbc.noaa.gov/" "text/plain";
   Route lightning_proxy_endpoint
         Main.proxy_lightning_data
         "https://nowcoast.noaa.gov/geoserver/observations/lightning_detection/ows"
         "application/xml"].

End ClientRoutes.

(** ** Traffic of several clients *)

(** The cache after the requests [(client_ip, now)] of [requests] have
    gone through [rate_limit_check], first to last. *)
Fixpoint rate_limit_run (requests : list (string * Z))
    (request_cache : gmap string (list Z)) : gmap string (list Z) :=
  match requests with
  | [] => request_cache
  | (client_ip, now) :: requests' =>
      rate_limit_run requests' (Main.rate_limit_check client_ip now request_cache).2
  end.

(** The URL of the forwarding rule for an origin [base_url] and the
    inbound parameters [kwargs]. *)
Definition request_url (base_url : string) (kwargs : Py.dict) : string :=
  Spec.append_query
    (base_url +:+ Spec.with_leading_slash (Py.get kwargs "path" ""))
    (Spec.forwarded_params kwargs).

(** The handler the forwarding routes have in common: without a path,
    400 at once; otherwise one request to [request_url base_url kwargs],
    answered through [answer] if it returns and with 500 and the message
    of the exception if it raises. *)
Definition forwarding_handler (base_url : string)
    (answer : string → string → Anvil.HttpResponse) (kwargs : Py.dict)
    : io Anvil.request_outcome Anvil.HttpResponse :=
  if Py.truthy (Py.get kwargs "path" "") then
    Call (request_url base_url kwargs) [] 60 (λ outcome,
      match outcome with
      | Anvil.Returned _ response => answer (request_url base_url kwargs) response
      | Anvil.Raised e => Anvil.mkHttpResponse 500 e []
      end)
  else Ret (Anvil.mkHttpResponse 400 "Missing 'path' parameter" []).

(** The handlers that forward query parameters, in both variants of the
    server code. *)
Definition query_forwarding_handlers
    : list (Py.dict → io Anvil.request_outcome Anvil.HttpResponse) :=
  [ServerCodeFixed.proxy_noaa_weather;
   ServerCodeFixed.proxy_aviation_weather;
   ServerCodeFixed.proxy_lightning_weather;
   ServerCodeCorrect.proxy_noaa_weather;
   ServerCodeCorrect.proxy_aviation_weather;
   ServerCodeCorrect.proxy_buoy_weather;
   ServerCodeCorrect.proxy_lightning_weather].

(** The handlers that demand a path: the remainder-path handlers and the
    lightning handler of [server_code_correct.py]. *)
Definition path_demanding_handlers
    : list (Py.dict → io Anvil.request_outcome Anvil.HttpResponse) :=
  remainder_path_handlers ++ [ServerCodeCorrect.proxy_lightning_weather].

(** * Properties *)

(** ** Python strings and dictionaries *)

Section PyFacts.
Import Py.

Lemma append_cons (x : ascii) (a b : string) : String x a +:+ b = String x (a +:+ b).
Proof. reflexivity. Qed.

Lemma append_assoc (a b c : string) : (a +:+ b) +:+ c = a +:+ b +:+ c.
Proof.
  induction a as [|x a IH]; [reflexivity|].
  by rewrite !append_cons, IH.
Qed.

Lemma prefix_iff (p s : string) :
  String.prefix p s = true ↔ ∃ r, s = p +:+ r.
Proof.
  revert s. induction p as [|x p IH]; intros s.
  - split; [intros _; exists s; reflexivity | by destruct s].
  - destruct s as [|y s]; cbn [String.prefix].
    + split; [discriminate | intros [r Hr]; discriminate].
    + destruct (ascii_dec x y) as [->|Hne].
      * rewrite IH. split; intros [r Hr]; exists r.
        -- by rewrite append_cons, Hr.
        -- rewrite append_cons in Hr. by injection Hr.
      * split; [done|]. intros [r Hr]. rewrite append_cons in Hr.
        injection Hr. congruence.
Qed.

(** [needle in hay] holds exactly when [hay] is some text, then [needle],
    then some text. *)
Lemma py_in_iff (needle hay : string) :
  py_in needle hay = true ↔ ∃ before after, hay = before +:+ needle +:+ after.
Proof.
  induction hay as [|x hay IH]; cbn [py_in]; rewrite orb_true_iff, prefix_iff.
  - split.
    + intros [[r Hr]|?]; [|done]. by exists "", r.
    + intros ([|y before] & after & H); [left; by exists after | discriminate].
  - rewrite IH. split.
    + intros [[r Hr]|(before & after & H)]; [by exists "", r|].
      exists (String x before), after. by rewrite append_cons, H.
    + intros ([|y before] & after & H); [left; by exists after|].
      right. exists before, after. rewrite append_cons in H. by injection H.
Qed.

Lemma py_in_append_r (needle a s : string) :
  py_in needle s = true → py_in needle (a +:+ s) = true.
Proof.
  rewrite !py_in_iff. intros (before & after & ->).
  exists (a +:+ before), after. by rewrite append_assoc.
Qed.

Lemma py_in_append_l (needle s b : string) :
  py_in needle s = true → py_in needle (s +:+ b) = true.
Proof.
  rewrite !py_in_iff. intros (before & after & ->).
  exists before, (after +:+ b). by rewrite !append_assoc.
Qed.

Lemma py_in_refl (s : string) : py_in s s = true.
Proof.
  apply py_in_iff. exists "", "". change ("" +:+ s +:+ "") with (s +:+ "").
  induction s as [|x s IH]; [done|]. by rewrite append_cons, <- IH.
Qed.

(** A part of [sep.join(parts)] is found in the joined text. *)
Lemma py_in_join (sep x : string) (parts : list string) :
  x ∈ parts → py_in x (join sep parts) = true.
Proof.
  induction parts as [|p parts IH]; intros Hx; [by apply elem_of_nil in Hx|].
  apply elem_of_cons in Hx as [->|Hx].
  - destruct parts as [|q parts]; cbn [join]; [apply py_in_refl|].
    apply py_in_append_l, py_in_refl.
  - destruct parts as [|q parts]; [by apply elem_of_nil in Hx|].
    cbn [join]. do 2 apply py_in_append_r. by apply IH.
Qed.

Lemma get_setitem (d : dict) (key value default : string) :
  get (setitem d key value) key default = value.
Proof.
  induction d as [|[k v] d IH]; cbn.
  - by rewrite String.eqb_refl.
  - destruct (String.eqb k key) eqn:Hk; cbn; by rewrite Hk.
Qed.

(** Assigning to [key] leaves the other items alone. *)
Lemma filter_setitem (d : dict) (key value : string) :
  filter (λ kv, kv.1 ≠ key) (setitem d key value) = filter (λ kv, kv.1 ≠ key) d.
Proof.
  induction d as [|[k v] d IH]; cbn [setitem].
  - by rewrite filter_cons_False by (cbn; auto).
  - destruct (String.eqb k key) eqn:Hk.
    + apply String.eqb_eq in Hk as ->.
      by rewrite !filter_cons_False by (cbn; auto).
    + apply String.eqb_neq in Hk.
      rewrite !filter_cons_True by done. by rewrite IH.
Qed.

(** The forwarded parameters are the inbound ones other than [path],
    each written [key=value]. *)
Lemma forwarded_params_iff (inbound : dict) (param : string) :
  param ∈ Spec.forwarded_params inbound ↔
  ∃ key value, (key, value) ∈ inbound ∧ key ≠ "path" ∧ param = key +:+ "=" +:+ value.
Proof.
  unfold Spec.forwarded_params. rewrite list_elem_of_fmap. split.
  - intros ([key value] & -> & [Hkey Hin]%list_elem_of_filter). by exists key, value.
  - intros (key & value & Hin & Hkey & ->). exists (key, value).
    split; [done|]. by apply list_elem_of_filter.
Qed.

(** Looking up a key the dictionary does not have gives the default. *)
Lemma get_without_key (d : dict) (key default : string) :
  has_key d key = false → get d key default = default.
Proof.
  induction d as [|[k v] d IH]; cbn [has_key get]; [done|].
  destruct (String.eqb k key); [done | exact IH].
Qed.

(** Leaving out a key the dictionary does not have leaves out nothing. *)
Lemma filter_without_key (d : dict) (key : string) :
  has_key d key = false → filter (λ kv, kv.1 ≠ key) d = d.
Proof.
  induction d as [|[k v] d IH]; cbn [has_key]; [done|].
  destruct (String.eqb k key) eqn:Hk; [done|]. cbn [orb]. intros Hd.
  apply String.eqb_neq in Hk.
  rewrite filter_cons_True by done. by rewrite IH.
Qed.

End PyFacts.

(** ** The rate limiter of [main.py] *)

Section RateLimiter.
Import Main.
Local Open Scope Z_scope.

Implicit Types (client_ip : string) (now : Z) (c : gmap string (list Z)).

Lemma rate_limit_check_eq client_ip now c :
  rate_limit_check client_ip now c =
    let pruned := filter (live now) (window c client_ip) in
    if bool_decide (RATE_LIMIT_MAX ≤ Z.of_nat (length pruned))
    then (false, <[client_ip := pruned]> c)
    else (true, <[client_ip := pruned ++ [now]]> c).
Proof.
  unfold rate_limit_check. rewrite !lookup_insert_eq. cbn [default from_option id].
  case_bool_decide; [done|].
  by rewrite insert_insert_eq.
Qed.

Lemma rate_limit_check_other client_ip other now c :
  client_ip ≠ other → (rate_limit_check client_ip now c).2 !! other = c !! other.
Proof.
  intros Hne. rewrite rate_limit_check_eq. cbn zeta.
  case_bool_decide; cbn [snd]; by rewrite lookup_insert_ne.
Qed.

(** Nothing is pruned from a window whose entries are all live. *)
Lemma filter_live_all now (w : list Z) :
  (∀ t, t ∈ w → now - t < RATE_LIMIT_WINDOW) → filter (live now) w = w.
Proof.
  induction w as [|t w IH]; intros Hw; [done|].
  rewrite filter_cons_True by (apply Hw; left).
  f_equal. apply IH. intros t' Ht'. apply Hw. by right.
Qed.

(** Everything is pruned from a window whose entries have all expired. *)
Lemma filter_live_none now (w : list Z) :
  (∀ t, t ∈ w → RATE_LIMIT_WINDOW ≤ now - t) → filter (live now) w = [].
Proof.
  induction w as [|t w IH]; intros Hw; [done|].
  rewrite filter_cons_False by (specialize (Hw t ltac:(left)); lia).
  apply IH. intros t' Ht'. apply Hw. by right.
Qed.


(** Calls that run one after the other grant the last slot once: with
    [RATE_LIMIT_MAX - 1] live entries, the first of two calls in the
    window is accepted and the second is rejected. *)
Lemma last_slot_granted_once client_ip (first second : Z) c (w : list Z) :
  c !! client_ip = Some w →
  Z.of_nat (length w) = RATE_LIMIT_MAX - 1 →
  (∀ t, t ∈ w → first - t < RATE_LIMIT_WINDOW ∧ second - t < RATE_LIMIT_WINDOW) →
  second - first < RATE_LIMIT_WINDOW →
  (rate_limit_check client_ip first c).1 = true ∧
  (rate_limit_check client_ip second (rate_limit_check client_ip first c).2).1 = false.
Proof.
  intros Hc Hlen Hlive Hclose.
  rewrite (rate_limit_check_eq client_ip first). cbn zeta.
  rewrite Hc. cbn [default from_option id].
  rewrite filter_live_all by (intros t Ht; by apply Hlive).
  rewrite bool_decide_eq_false_2 by lia. split; [done|]. cbn [snd].
  rewrite rate_limit_check_eq. cbn zeta.
  rewrite lookup_insert_eq. cbn [default from_option id].
  rewrite filter_live_all.
  - rewrite bool_decide_eq_true_2; [done|]. rewrite length_app. cbn [length]. lia.
  - intros t [Ht| ->%list_elem_of_singleton]%elem_of_app; [by apply Hlive | done].
Qed.


(** C2. [rate_limit_check] first prunes the client's window, keeping the
    timestamps [t] with [now - t < RATE_LIMIT_WINDOW] in their order, so
    that no timestamp older than [now - RATE_LIMIT_WINDOW] remains; if the
    pruned window holds [RATE_LIMIT_MAX] entries or more, the call returns
    [False] and the client's window is exactly the pruned window; otherwise
    the call returns [True] and the window is the pruned window followed
    by [now]. *)
Theorem rate_limit_check_prunes_then_records client_ip now c :
  ∃ pruned : list Z,
    pruned = filter (live now) (window c client_ip) ∧
    pruned `sublist_of` window c client_ip ∧
    (∀ t, t < now - RATE_LIMIT_WINDOW → t ∉ pruned) ∧
    (∀ t, t ∈ pruned ↔ t ∈ window c client_ip ∧ now - RATE_LIMIT_WINDOW < t) ∧
    ((RATE_LIMIT_MAX ≤ Z.of_nat (length pruned) ∧
      rate_limit_check client_ip now c = (false, <[client_ip := pruned]> c) ∧
      (rate_limit_check client_ip now c).2 !! client_ip = Some pruned)
     ∨
     (Z.of_nat (length pruned) < RATE_LIMIT_MAX ∧
      rate_limit_check client_ip now c = (true, <[client_ip := pruned ++ [now]]> c) ∧
      (rate_limit_check client_ip now c).2 !! client_ip = Some (pruned ++ [now]))).
Proof.
  exists (filter (live now) (window c client_ip)).
  split; [done|]. split; [apply sublist_filter|].
  split; [intros t Hold [Hlive _]%list_elem_of_filter; lia|].
  split; [intros t; rewrite list_elem_of_filter; split; intros [? ?]; split; (done || lia)|].
  rewrite rate_limit_check_eq. cbn zeta.
  case_bool_decide as Hfull; [left | right]; cbn [snd];
    rewrite lookup_insert_eq; (split; [lia | done]).
Qed.

(** C9. Whatever its verdict, [rate_limit_check] leaves the client in
    [request_cache]: the entry holds the pruned window (followed by [now]
    when the request was accepted), every timestamp in it is less than
    [RATE_LIMIT_WINDOW] old at [now] (and not in the future of [now] if
    none was before the call), and [get_weather_stats] counts the client
    among its [active_clients], also when the request was rejected. *)
Theorem rate_limit_check_registers_client client_ip now c timestamp :
  let verdict := (rate_limit_check client_ip now c).1 in
  let c' := (rate_limit_check client_ip now c).2 in
  let pruned := filter (live now) (window c client_ip) in
  c' !! client_ip = Some (if verdict then pruned ++ [now] else pruned) ∧
  (∀ t, t ∈ window c' client_ip → now - t < RATE_LIMIT_WINDOW) ∧
  ((∀ t, t ∈ window c client_ip → t ≤ now) →
   ∀ t, t ∈ window c' client_ip → 0 ≤ now - t < RATE_LIMIT_WINDOW) ∧
  client_ip ∈ dom c' ∧
  active_clients (get_weather_stats timestamp c') = S (size (delete client_ip c)).
Proof.
  cbn zeta. rewrite rate_limit_check_eq. cbn zeta.
  set (pruned := filter (live now) (window c client_ip)).
  assert (Hpruned : ∀ t, t ∈ pruned → now - t < RATE_LIMIT_WINDOW)
    by (intros t [Hlive _]%list_elem_of_filter; exact Hlive).
  assert (Hsize : ∀ w : list Z, size (<[client_ip := w]> c) = S (size (delete client_ip c))).
  { intros w. rewrite <- insert_delete_eq.
    apply map_size_insert_None, lookup_delete_eq. }
  assert (Hpast : (∀ t, t ∈ window c client_ip → t ≤ now) → ∀ t, t ∈ pruned → 0 ≤ now - t)
    by (intros Hmono t [_ Hin]%list_elem_of_filter; specialize (Hmono t Hin); lia).
  assert (Hdom : ∀ w : list Z, client_ip ∈ dom (<[client_ip := w]> c))
    by (intros w; apply elem_of_dom; rewrite lookup_insert_eq; by eexists).
  case_bool_decide as Hfull; cbn [fst snd active_clients get_weather_stats];
    rewrite lookup_insert_eq; cbn [default from_option id].
  - split; [done|]. split; [done|]. split; [|by split].
    intros Hmono t Ht. split; [by apply Hpast | by apply Hpruned].
  - split; [done|]. split; [|split; [|by split]].
    + intros t [Ht| ->%list_elem_of_singleton]%elem_of_app; [by apply Hpruned|].
      unfold RATE_LIMIT_WINDOW. lia.
    + intros Hmono t [Ht| ->%list_elem_of_singleton]%elem_of_app.
      * split; [by apply Hpast | by apply Hpruned].
      * unfold RATE_LIMIT_WINDOW. lia.
Qed.

(** A client with a full window: its request is rejected, and it is
    still the one active client of the statistics. *)
Lemma rate_limit_check_registers_client_witness :
  let c : gmap string (list Z) := {[ "198.51.100.7" := replicate 1000 0 ]} in
  (rate_limit_check "198.51.100.7" 5 c).1 = false ∧
  (rate_limit_check "198.51.100.7" 5 c).2 !! "198.51.100.7" = Some (replicate 1000 0) ∧
  (∀ t, t ∈ window (rate_limit_check "198.51.100.7" 5 c).2 "198.51.100.7" →
        0 ≤ 5 - t < RATE_LIMIT_WINDOW) ∧
  active_clients (get_weather_stats "2025-01-01T00:00:00"
                    (rate_limit_check "198.51.100.7" 5 c).2) = 1%nat.
Proof.
  cbn zeta.
  destruct (rate_limit_check_registers_client "198.51.100.7" 5
              {[ "198.51.100.7" := replicate 1000 0 ]} "2025-01-01T00:00:00")
    as (Hentry & _ & Hmono & _ & Hstats).
  split; [vm_compute; reflexivity|].
  split; [rewrite Hentry; vm_compute; reflexivity|].
  split; [|rewrite Hstats; vm_compute; reflexivity].
  apply Hmono. rewrite lookup_singleton_eq. cbn [default from_option id].
  intros t ->%elem_of_replicate_inv. lia.
Defined.

(** Rejection starts at the quota and not before: after one accepted
    request the second request of the same client, one second later, is
    accepted too and answered with the upstream's 200. *)
Lemma request_below_quota_accepted :
  rate_limit_checks "198.51.100.7" [100; 101] ∅ =
    ([true; true], {[ "198.51.100.7" := [100; 101] ]}) ∧
  status (run (λ _, Response 200 "{}" [])
            (proxy_noaa_weather "geoserver/ows" "198.51.100.7" 101
               (rate_limit_checks "198.51.100.7" [100] ∅).2).1) = 200.
Proof. split; [vm_compute; reflexivity | vm_compute; reflexivity]. Qed.



End RateLimiter.

(** ** The upstream URL built by the [http_endpoint] handlers *)

Section UpstreamUrl.
Import Py Anvil Spec.

Lemma startswith_slash (p : string) : startswith ("/" +:+ p) "/" = true.
Proof. by destruct p. Qed.

(** C10, as stated, fails at the empty path, which does not begin with a
    slash: it is answered 400 without any outbound call, while the path
    "/" is forwarded to the upstream root. *)
Lemma empty_path_is_not_normalised :
  startswith "" "/" = false ∧
  outbound_url (ServerCodeFixed.proxy_noaa_weather (setitem [] "path" "")) = None ∧
  outbound_url (ServerCodeFixed.proxy_noaa_weather (setitem [] "path" ("/" +:+ "")))
    = Some "https://nowcoast.noaa.gov/".
Proof. repeat split. Qed.

(** C10, amended. For the marine/radar, aviation and buoy handlers of
    both server variants and every non-empty path [p] that does not begin
    with a slash, the requests with [path = p] and with [path = "/" + p]
    (and the same other parameters) are handled identically: both make an
    outbound call, to the same URL, and give the same answer whatever the
    network does. *)
Theorem leading_slash_is_normalised (kwargs : dict) (p : string) :
  p ≠ "" →
  startswith p "/" = false →
  Forall (λ handler,
            ∃ url,
              outbound_url (handler (setitem kwargs "path" p)) = Some url ∧
              outbound_url (handler (setitem kwargs "path" ("/" +:+ p))) = Some url ∧
              ∀ net, run net (handler (setitem kwargs "path" p)) =
                     run net (handler (setitem kwargs "path" ("/" +:+ p))))
         remainder_path_handlers.
Proof.
  intros Hne Hslash. destruct p as [|a p]; [done|].
  assert (Hsame : Forall (λ handler,
            is_Some (outbound_url (handler (setitem kwargs "path" (String a p)))) ∧
            handler (setitem kwargs "path" (String a p)) =
            handler (setitem kwargs "path" ("/" +:+ String a p)))
         remainder_path_handlers).
  { unfold remainder_path_handlers.
    repeat apply Forall_cons_2; [..|apply Forall_nil_2];
      unfold ServerCodeFixed.proxy_noaa_weather, ServerCodeFixed.proxy_aviation_weather,
             ServerCodeFixed.proxy_buoy_weather, ServerCodeCorrect.proxy_noaa_weather,
             ServerCodeCorrect.proxy_aviation_weather, ServerCodeCorrect.proxy_buoy_weather;
      cbv zeta; rewrite !get_setitem, ?filter_setitem, Hslash, startswith_slash;
      (split; [cbn; eauto | reflexivity]). }
  eapply Forall_impl; [exact Hsame|]. cbn beta.
  intros handler [[url Hurl] Heq]. exists url. rewrite <- Heq. auto.
Qed.

Lemma leading_slash_is_normalised_witness :
  Forall (λ handler,
            ∃ url,
              outbound_url (handler (setitem [("service", "WMS")] "path" "geoserver/ows"))
                = Some url ∧
              outbound_url (handler (setitem [("service", "WMS")] "path"
                                       ("/" +:+ "geoserver/ows"))) = Some url ∧
              ∀ net, run net (handler (setitem [("service", "WMS")] "path" "geoserver/ows")) =
                     run net (handler (setitem [("service", "WMS")] "path"
                                         ("/" +:+ "geoserver/ows"))))
         remainder_path_handlers.
Proof.
  apply (leading_slash_is_normalised [("service", "WMS")] "geoserver/ows");
    [discriminate | reflexivity].
Defined.

(** C6, as stated, fails in [server_code_fixed.py] on two routes: the
    buoy handler forwards no query parameter, and the lightning handler
    forwards [path] along with the others. *)
Lemma buoy_drops_query_and_lightning_forwards_path :
  outbound_url (ServerCodeFixed.proxy_buoy_weather
                  [("path", "data/realtime2/42001.txt"); ("format", "txt")])
    = Some "https://www.ndbc.noaa.gov/data/realtime2/42001.txt" ∧
  outbound_url (ServerCodeFixed.proxy_lightning_weather
                  [("path", "ows"); ("service", "WMS")])
    = Some "https://nowcoast.noaa.gov/geoserver/observations/lightning_detection/ows?path=ows&service=WMS".
Proof. split; reflexivity. Qed.

(** C6, amended. In [server_code_fixed.py], the marine/radar and aviation
    handlers request the origin followed by the remainder path and, after
    [?] or [&] as the URL requires, every inbound parameter except [path]
    as [key=value] joined with [&]; they make no request when the path is
    missing.  The lightning handler requests its constant URL followed,
    after [?], by every inbound parameter as [key=value] joined with [&],
    a [path] parameter included. *)
Theorem query_forwarding_per_route (kwargs : dict) :
  let path := get kwargs "path" "" in
  let lightning_url :=
    "https://nowcoast.noaa.gov/geoserver/observations/lightning_detection/ows" in
  outbound_url (ServerCodeFixed.proxy_noaa_weather kwargs) =
    (if truthy path
     then Some (append_query ("https://nowcoast.noaa.gov" +:+ with_leading_slash path)
                             (forwarded_params kwargs))
     else None) ∧
  outbound_url (ServerCodeFixed.proxy_aviation_weather kwargs) =
    (if truthy path
     then Some (append_query ("https://aviationweather.gov" +:+ with_leading_slash path)
                             (forwarded_params kwargs))
     else None) ∧
  outbound_url (ServerCodeFixed.proxy_lightning_weather kwargs) =
    Some (match kwargs with
          | [] => lightning_url
          | _ => lightning_url +:+ "?"
                   +:+ join "&" ((λ kv, kv.1 +:+ "=" +:+ kv.2) <$> kwargs)
          end) ∧
  (∀ value, ("path", value) ∈ kwargs →
     ∃ url, outbound_url (ServerCodeFixed.proxy_lightning_weather kwargs) = Some url ∧
            py_in ("path=" +:+ value) url = true).
Proof.
  cbn zeta.
  assert (Hlightning :
    outbound_url (ServerCodeFixed.proxy_lightning_weather kwargs) =
    Some (match kwargs with
          | [] => "https://nowcoast.noaa.gov/geoserver/observations/lightning_detection/ows"
          | _ => "https://nowcoast.noaa.gov/geoserver/observations/lightning_detection/ows"
                   +:+ "?" +:+ join "&" ((λ kv, kv.1 +:+ "=" +:+ kv.2) <$> kwargs)
          end)).
  { unfold ServerCodeFixed.proxy_lightning_weather. by destruct kwargs. }
  repeat split.
  - unfold ServerCodeFixed.proxy_noaa_weather, append_query, with_leading_slash,
      forwarded_params.
    destruct (truthy (get kwargs "path" "")); [|done]. cbn [negb].
    destruct (startswith (get kwargs "path" "") "/"); cbn [negb];
      by destruct (_ <$> _).
  - unfold ServerCodeFixed.proxy_aviation_weather, append_query, with_leading_slash,
      forwarded_params.
    destruct (truthy (get kwargs "path" "")); [|done]. cbn [negb].
    destruct (startswith (get kwargs "path" "") "/"); cbn [negb];
      by destruct (_ <$> _).
  - exact Hlightning.
  - intros value Hin. eexists. split; [exact Hlightning|].
    destruct kwargs as [|kv kwargs]; [by apply elem_of_nil in Hin|].
    do 2 apply py_in_append_r. apply py_in_join.
    apply (list_elem_of_fmap_2 (λ kv, kv.1 +:+ "=" +:+ kv.2) _ _ Hin).
Qed.

Lemma query_forwarding_per_route_witness :
  outbound_url (ServerCodeFixed.proxy_noaa_weather
                  [("path", "geoserver/ows"); ("service", "WMS"); ("request", "GetMap")])
    = Some "https://nowcoast.noaa.gov/geoserver/ows?service=WMS&request=GetMap" ∧
  ∃ url,
    outbound_url (ServerCodeFixed.proxy_lightning_weather
                    [("path", "ows"); ("service", "WMS")]) = Some url ∧
    py_in "path=ows" url = true.
Proof.
  split.
  - destruct (query_forwarding_per_route
                [("path", "geoserver/ows"); ("service", "WMS"); ("request", "GetMap")])
      as (Hnoaa & _).
    rewrite Hnoaa. reflexivity.
  - destruct (query_forwarding_per_route [("path", "ows"); ("service", "WMS")])
      as (_ & _ & _ & Hpath).
    apply (Hpath "ows"). left.
Defined.

(** The buoy handler of [server_code_fixed.py] requests the origin
    followed by the remainder path, whatever other parameters come in. *)
Lemma buoy_forwards_no_query (kwargs : dict) :
  outbound_url (ServerCodeFixed.proxy_buoy_weather kwargs) =
    (if truthy (get kwargs "path" "")
     then Some ("https://www.ndbc.noaa.gov" +:+ with_leading_slash (get kwargs "path" ""))
     else None).
Proof.
  unfold ServerCodeFixed.proxy_buoy_weather, with_leading_slash.
  destruct (truthy (get kwargs "path" "")); [|done]. cbn [negb].
  by destruct (startswith (get kwargs "path" "") "/").
Qed.

(** The lightning handler of [server_code_fixed.py] does not look at
    [path]: a request with query parameters is forwarded to the constant
    lightning URL with those parameters attached; when the call returns
    and the lower-cased URL does not contain "getmap", the answer is a 200
    with the upstream body and the content type [application/xml]. *)
Lemma lightning_fixed_forwards (kwargs : dict) (net : string → request_outcome) :
  kwargs ≠ [] →
  let url := "https://nowcoast.noaa.gov/geoserver/observations/lightning_detection/ows"
               +:+ "?" +:+ join "&" ((λ kv, kv.1 +:+ "=" +:+ kv.2) <$> kwargs) in
  outbound_url (ServerCodeFixed.proxy_lightning_weather kwargs) = Some url ∧
  ∀ upstream_status response,
    net url = Returned upstream_status response →
    py_in "getmap" (lower url) = false →
    let answer := run net (ServerCodeFixed.proxy_lightning_weather kwargs) in
    status answer = 200%Z ∧ body answer = response ∧
    get (headers answer) "Content-Type" "" = "application/xml".
Proof.
  intros Hne. destruct kwargs as [|kv kwargs]; [done|].
  cbn zeta. split; [reflexivity|].
  intros upstream_status response Hnet Hmap.
  unfold ServerCodeFixed.proxy_lightning_weather. cbv zeta.
  rewrite fmap_cons in *. cbn [run]. by rewrite Hnet, Hmap.
Qed.

(** C7, as stated, fails twice.  In [server_code_correct.py] the lightning
    handler answers the request of the specification's scenario, which has
    parameters and no [path], with 400 "Missing 'path' parameter" and
    makes no outbound call.  And the test for "getmap" is made on the
    lower-cased URL: in [server_code_fixed.py] a request with
    [request=GetMap] goes to a URL that does not contain "getmap", and the
    answer is labelled [image/png]. *)
Lemma lightning_rejected_without_path_or_labelled_png :
  ServerCodeCorrect.proxy_lightning_weather
    [("service", "WMS"); ("request", "GetCapabilities")] =
    Ret (mkHttpResponse 400 "Missing 'path' parameter" []) ∧
  (let kwargs := [("service", "WMS"); ("request", "GetMap")] in
   let url := "https://nowcoast.noaa.gov/geoserver/observations/lightning_detection/ows?service=WMS&request=GetMap" in
   outbound_url (ServerCodeFixed.proxy_lightning_weather kwargs) = Some url ∧
   py_in "getmap" url = false ∧
   get (headers (run (λ _, Returned 200 "PNG")
                   (ServerCodeFixed.proxy_lightning_weather kwargs)))
       "Content-Type" "" = "image/png").
Proof. split; [reflexivity|]. cbv zeta. split; [|split]; vm_compute; reflexivity. Qed.

(** C7, amended.  Take a request to the lightning route that supplies
    query parameters but no [path] parameter.  In [server_code_fixed.py]
    it is not rejected for a missing path: it is forwarded to the constant
    lightning URL with the inbound query parameters attached and, when the
    lower-cased URL contains no "getmap", a returned call is answered with
    200, the upstream body and the content type [application/xml].  In
    [server_code_correct.py] the handler demands a non-empty [path]: the
    request as it is gets 400 "Missing 'path' parameter" and no outbound
    call; once a non-empty [path] of any value is added, it is forwarded
    to that same URL, [path] left out, and answered with the same status,
    body and content type. *)
Theorem lightning_without_path_by_variant (kwargs : dict) (net : string → request_outcome) :
  kwargs ≠ [] →
  has_key kwargs "path" = false →
  let url := "https://nowcoast.noaa.gov/geoserver/observations/lightning_detection/ows"
               +:+ "?" +:+ join "&" ((λ kv, kv.1 +:+ "=" +:+ kv.2) <$> kwargs) in
  (outbound_url (ServerCodeFixed.proxy_lightning_weather kwargs) = Some url ∧
   ∀ upstream_status response,
     net url = Returned upstream_status response →
     py_in "getmap" (lower url) = false →
     let answer := run net (ServerCodeFixed.proxy_lightning_weather kwargs) in
     status answer = 200%Z ∧ body answer = response ∧
     get (headers answer) "Content-Type" "" = "application/xml") ∧
  ServerCodeCorrect.proxy_lightning_weather kwargs =
    Ret (mkHttpResponse 400 "Missing 'path' parameter" []) ∧
  (∀ path, path ≠ "" →
     let with_path := setitem kwargs "path" path in
     outbound_url (ServerCodeCorrect.proxy_lightning_weather with_path) = Some url ∧
     ∀ upstream_status response,
       net url = Returned upstream_status response →
       py_in "getmap" (lower url) = false →
       let answer := run net (ServerCodeCorrect.proxy_lightning_weather with_path) in
       status answer = 200%Z ∧ body answer = response ∧
       get (headers answer) "Content-Type" "" = "application/xml").
Proof.
  intros Hne Hmissing. cbv zeta. split; [|split].
  - exact (lightning_fixed_forwards kwargs net Hne).
  - unfold ServerCodeCorrect.proxy_lightning_weather. cbv zeta.
    by rewrite (get_without_key _ _ _ Hmissing).
  - intros path Hpath.
    unfold ServerCodeCorrect.proxy_lightning_weather. cbv zeta.
    rewrite get_setitem, filter_setitem, (filter_without_key _ _ Hmissing).
    destruct path as [|a path]; [done|]. cbn [truthy negb].
    destruct kwargs as [|kv kwargs]; [done|]. rewrite fmap_cons.
    split; [reflexivity|].
    intros upstream_status response Hnet Hmap. cbn [run]. by rewrite Hnet, Hmap.
Qed.

(** The scenario of the specification, [service=WMS&request=GetCapabilities]
    without [path]: [server_code_fixed.py] forwards it and labels the
    answer [application/xml]; [server_code_correct.py] answers 400, and
    forwards it to the same URL once [path=ows] is added. *)
Lemma lightning_without_path_by_variant_witness :
  let kwargs := [("service", "WMS"); ("request", "GetCapabilities")] in
  let url := "https://nowcoast.noaa.gov/geoserver/observations/lightning_detection/ows?service=WMS&request=GetCapabilities" in
  let net := λ _ : string, Returned 200 "<WMS_Capabilities/>" in
  outbound_url (ServerCodeFixed.proxy_lightning_weather kwargs) = Some url ∧
  get (headers (run net (ServerCodeFixed.proxy_lightning_weather kwargs)))
      "Content-Type" "" = "application/xml" ∧
  ServerCodeCorrect.proxy_lightning_weather kwargs =
    Ret (mkHttpResponse 400 "Missing 'path' parameter" []) ∧
  outbound_url (ServerCodeCorrect.proxy_lightning_weather
                  (setitem kwargs "path" "ows")) = Some url ∧
  get (headers (run net (ServerCodeCorrect.proxy_lightning_weather
                           (setitem kwargs "path" "ows"))))
      "Content-Type" "" = "application/xml".
Proof.
  cbv zeta.
  assert (Hne : [("service", "WMS"); ("request", "GetCapabilities")] ≠ ([] : dict))
    by discriminate.
  destruct (lightning_without_path_by_variant
              [("service", "WMS"); ("request", "GetCapabilities")]
              (λ _, Returned 200 "<WMS_Capabilities/>") Hne eq_refl)
    as ((Hurl & Hanswer) & Hrejected & Hwith_path).
  split; [exact Hurl|]. split.
  { destruct (Hanswer 200%Z "<WMS_Capabilities/>" eq_refl) as (_ & _ & Hct);
      [vm_compute; reflexivity | exact Hct]. }
  split; [exact Hrejected|].
  assert (Hows : "ows" ≠ "") by discriminate.
  destruct (Hwith_path "ows" Hows) as (Hurl' & Hanswer').
  split; [exact Hurl'|].
  destruct (Hanswer' 200%Z "<WMS_Capabilities/>" eq_refl) as (_ & _ & Hct);
    [vm_compute; reflexivity | exact Hct].
Defined.

End UpstreamUrl.

(** ** The forwarder of [main.py] *)

Section Forwarder.
Import Py Main.
Local Open Scope Z_scope.

(** C4. [make_proxy_request] makes one outbound call to the target URL
    and classifies its outcome in one of three ways: a timeout gives
    status 408 and the JSON body of [error: Request timeout], a failure
    flag; any other request exception gives status 500 and the JSON body
    whose [error] member is the message of the exception; a response gives
    its own status code, text and headers, whatever the status code, with
    the success flag.  The flag is set for a response only. *)
Theorem make_proxy_request_classifies (target_url : string) (timeout : Z) :
  ∃ request_headers k,
    make_proxy_request target_url timeout = Call target_url request_headers timeout k ∧
    (status (k Timeout) = 408 ∧
     py_in "Request timeout" (content (k Timeout)) = true ∧
     success (k Timeout) = false) ∧
    (∀ e,
       status (k (RequestException e)) = 500 ∧
       content (k (RequestException e)) = json_dumps [("error", e); ("service", "weather")] ∧
       py_in (json_string e) (content (k (RequestException e))) = true ∧
       success (k (RequestException e)) = false) ∧
    (∀ status_code text response_headers,
       k (Response status_code text response_headers) =
         ProxyResult status_code text response_headers true) ∧
    (∀ outcome,
       success (k outcome) = true ↔
       ∃ status_code text response_headers,
         outcome = Response status_code text response_headers).
Proof.
  unfold make_proxy_request. cbv zeta. do 2 eexists. split; [reflexivity|].
  cbv beta iota. split; [by repeat split|]. split; [|split; [done|]].
  - intros e. split; [done|]. split; [done|]. split; [|done].
    cbn [content]. unfold json_dumps. cbn [map join fst snd].
    apply py_in_append_r. do 2 apply py_in_append_l.
    do 2 apply py_in_append_r. apply py_in_refl.
  - intros outcome. split.
    + intros Hs. destruct outcome; try discriminate. eauto.
    + intros (status_code & text & response_headers & ->). reflexivity.
Qed.

End Forwarder.

(** ** The answers given to the external caller *)

Section Envelope.
Import Py Anvil.
Local Open Scope Z_scope.

(** Case analysis over the four routed handlers of [server_code_fixed.py]:
    one goal per handler, unfolded, past the test of the path. *)
Ltac by_fixed_handler H :=
  unfold fixed_handlers in H;
  repeat (apply elem_of_cons in H as [->|H]);
  [..|by apply elem_of_nil in H];
  unfold ServerCodeFixed.proxy_noaa_weather, ServerCodeFixed.proxy_aviation_weather,
         ServerCodeFixed.proxy_buoy_weather, ServerCodeFixed.proxy_lightning_weather;
  cbv zeta;
  try (match goal with
       | |- context [truthy ?p] => destruct (truthy p); cbn [negb]
       end).

(** What the handlers of [server_code_fixed.py] answer, by branch: 400
    without headers when the path is missing; otherwise one outbound call,
    then 200 with the returned body if the call returns and 500 with the
    message of the exception, without headers, if it raises. *)
Lemma fixed_handler_answers handler (kwargs : dict) :
  handler ∈ fixed_handlers →
  match handler kwargs with
  | Ret answer => answer = mkHttpResponse 400 "Missing 'path' parameter" []
  | Call _ _ _ k =>
      (∀ upstream_status response,
         status (k (Returned upstream_status response)) = 200 ∧
         body (k (Returned upstream_status response)) = response ∧
         get (headers (k (Returned upstream_status response)))
             "Access-Control-Allow-Origin" "" = "*") ∧
      (∀ e, k (Raised e) = mkHttpResponse 500 e [])
  end.
Proof. intros Hin. by_fixed_handler Hin; by repeat split. Qed.

(** C1, as stated, fails in [server_code_fixed.py]: the 400 answer to a
    request without [path] and the 500 answer to a failed outbound call
    carry no [Access-Control-Allow-Origin] header. *)
Lemma error_answers_lack_cors_header :
  has_header "Access-Control-Allow-Origin"
    (run (λ _, Returned 200 "{}")
         (ServerCodeFixed.proxy_noaa_weather [("service", "WMS")])) = false ∧
  has_header "Access-Control-Allow-Origin"
    (run (λ _, Raised "Connection timed out")
         (ServerCodeFixed.proxy_noaa_weather [("path", "geoserver/ows")])) = false.
Proof. split; reflexivity. Qed.

(** C1, amended.  The answer carries [Access-Control-Allow-Origin: *] on
    every branch but the missing path and the exception raised inside a
    handler: in [server_code_fixed.py], whenever the outbound call of a
    routed handler returns; in [client_code.py], on each of its four
    endpoints, whenever the server callable hands back a result, whatever
    its status, and hence for every answer served by the callable of
    [main.py] behind that endpoint, be it the upstream's, a 429 of the
    rate limiter, a 408 or a 500 of the forwarder.  The first endpoint is
    covered for every dictionary of query parameters, and all four as
    [ClientRoutes.routes] lists them. *)
Theorem cors_header_on_forwarded_answers :
  (∀ handler (kwargs : dict) net url upstream_status response,
     handler ∈ fixed_handlers →
     outbound_url (handler kwargs) = Some url →
     net url = Returned upstream_status response →
     has_header "Access-Control-Allow-Origin" (run net (handler kwargs)) = true ∧
     get (headers (run net (handler kwargs))) "Access-Control-Allow-Origin" "" = "*") ∧
  (∀ query_params remote_addr server_call result,
     server_call (get query_params "path" "")
                 (match remote_addr with
                  | Some addr => if truthy addr then addr else "unknown"
                  | None => "unknown"
                  end) = CallReturned result →
     let answer := ClientCode.noaa_proxy_endpoint query_params remote_addr server_call in
     status answer = Main.status result ∧
     has_header "Access-Control-Allow-Origin" answer = true ∧
     get (headers answer) "Access-Control-Allow-Origin" "" = "*") ∧
  (∀ query_params remote_addr net now request_cache,
     let answer :=
       ClientCode.noaa_proxy_endpoint query_params remote_addr
         (ClientCode.call_proxy_noaa_weather net now request_cache) in
     has_header "Access-Control-Allow-Origin" answer = true ∧
     get (headers answer) "Access-Control-Allow-Origin" "" = "*") ∧
  Forall (λ r,
            (∀ path remote_addr server_call result,
               server_call path (ClientRoutes.client_ip_of remote_addr)
                 = CallReturned result →
               let answer := ClientRoutes.endpoint r path remote_addr server_call in
               status answer = Main.status result ∧
               has_header "Access-Control-Allow-Origin" answer = true ∧
               get (headers answer) "Access-Control-Allow-Origin" "" = "*") ∧
            (∀ path remote_addr net now request_cache,
               let answer :=
                 ClientRoutes.endpoint r path remote_addr
                   (ClientRoutes.served_by (ClientRoutes.callable r)
                      net now request_cache) in
               has_header "Access-Control-Allow-Origin" answer = true ∧
               get (headers answer) "Access-Control-Allow-Origin" "" = "*"))
         ClientRoutes.routes.
Proof.
  split; [|split; [|split]].
  - intros handler kwargs net url upstream_status response Hin Hurl Hnet.
    pose proof (fixed_handler_answers handler kwargs Hin) as Hanswers.
    destruct (handler kwargs) as [answer|url' request_headers timeout k];
      [discriminate|].
    cbn [outbound_url] in Hurl. injection Hurl as ->.
    destruct Hanswers as [Hreturned _].
    destruct (Hreturned upstream_status response) as (_ & _ & Hcors).
    cbn [run]. rewrite Hnet. split; [|exact Hcors].
    unfold has_header. revert Hcors.
    generalize (headers (k (Returned upstream_status response))).
    intros hs. induction hs as [|[name value] hs IH]; cbn [get has_key]; [done|].
    destruct (String.eqb name "Access-Control-Allow-Origin"); [done | exact IH].
  - intros query_params remote_addr server_call result Hcall. cbv zeta.
    unfold ClientCode.noaa_proxy_endpoint. cbv zeta. rewrite Hcall. by repeat split.
  - intros. cbv zeta.
    unfold ClientCode.noaa_proxy_endpoint, ClientCode.call_proxy_noaa_weather.
    by split.
  - unfold ClientRoutes.routes.
    repeat (apply Forall_cons_2; [|]); [..|apply Forall_nil_2];
      cbn [ClientRoutes.endpoint ClientRoutes.callable];
      (split;
       [ intros path remote_addr server_call result Hcall; cbv zeta;
         unfold ClientRoutes.client_ip_of in Hcall;
         unfold ClientCode.noaa_proxy_endpoint, ClientRoutes.awc_proxy_endpoint,
                ClientRoutes.buoy_proxy_endpoint, ClientRoutes.lightning_proxy_endpoint;
         cbv zeta;
         change (get [("path", path)] "path" "") with path;
         rewrite Hcall; by repeat split
       | intros path remote_addr net now request_cache; cbv zeta;
         unfold ClientCode.noaa_proxy_endpoint, ClientRoutes.awc_proxy_endpoint,
                ClientRoutes.buoy_proxy_endpoint, ClientRoutes.lightning_proxy_endpoint,
                ClientRoutes.served_by;
         by split ]).
Qed.

(** The kinds of answers that carry the header: an upstream body through
    [server_code_fixed.py]; a 429 and a 408 relayed by the first endpoint
    of [client_code.py]; and, on its other three routes, a 429 relayed by
    the buoy endpoint, a 500 of the forwarder of [main.py] through the
    aviation endpoint and a 408 through the lightning endpoint. *)
Lemma cors_header_on_forwarded_answers_witness :
  has_header "Access-Control-Allow-Origin"
    (run (λ _, Returned 200 "{}")
         (ServerCodeFixed.proxy_noaa_weather [("path", "geoserver/ows")])) = true ∧
  (let answer :=
     ClientCode.noaa_proxy_endpoint [("path", "geoserver/ows")] None
       (λ _ _, CallReturned (Main.ProxyResult 429 "{}" [] false)) in
   status answer = 429 ∧
   has_header "Access-Control-Allow-Origin" answer = true) ∧
  (let answer :=
     ClientCode.noaa_proxy_endpoint [("path", "geoserver/ows")] (Some "198.51.100.7")
       (ClientCode.call_proxy_noaa_weather (λ _, Main.Timeout) 0 ∅) in
   status answer = 408 ∧
   has_header "Access-Control-Allow-Origin" answer = true) ∧
  (let answer :=
     ClientRoutes.buoy_proxy_endpoint "data/realtime2/42001.txt" None
       (λ _ _, CallReturned (Main.ProxyResult 429 "{}" [] false)) in
   status answer = 429 ∧
   has_header "Access-Control-Allow-Origin" answer = true) ∧
  (let answer :=
     ClientRoutes.awc_proxy_endpoint "api/data/metar" (Some "198.51.100.7")
       (ClientRoutes.served_by Main.proxy_aviation_weather
          (λ _, Main.RequestException "Connection refused") 0 ∅) in
   status answer = 500 ∧
   has_header "Access-Control-Allow-Origin" answer = true) ∧
  (let answer :=
     ClientRoutes.lightning_proxy_endpoint "?service=WMS" (Some "198.51.100.7")
       (ClientRoutes.served_by Main.proxy_lightning_data (λ _, Main.Timeout) 0 ∅) in
   status answer = 408 ∧
   has_header "Access-Control-Allow-Origin" answer = true).
Proof.
  destruct cors_header_on_forwarded_answers as (Hfixed & Hrelay & Hmain & Hroutes).
  unfold ClientRoutes.routes in Hroutes.
  apply Forall_cons_1 in Hroutes as [_ Hroutes].
  apply Forall_cons_1 in Hroutes as [[_ Hawc] Hroutes].
  apply Forall_cons_1 in Hroutes as [[Hbuoy _] Hroutes].
  apply Forall_cons_1 in Hroutes as [[_ Hlightning] _].
  cbn [ClientRoutes.endpoint ClientRoutes.callable] in Hawc, Hbuoy, Hlightning.
  split; [|split; [|split; [|split; [|split]]]].
  - eapply (Hfixed ServerCodeFixed.proxy_noaa_weather [("path", "geoserver/ows")]
              (λ _, Returned 200 "{}")); [left | reflexivity | reflexivity].
  - destruct (Hrelay [("path", "geoserver/ows")] None
                (λ _ _, CallReturned (Main.ProxyResult 429 "{}" [] false))
                (Main.ProxyResult 429 "{}" [] false) eq_refl) as (Hstatus & Hcors & _).
    by split.
  - split; [reflexivity|].
    apply (Hmain [("path", "geoserver/ows")] (Some "198.51.100.7")
             (λ _, Main.Timeout) 0 ∅).
  - destruct (Hbuoy "data/realtime2/42001.txt" None
                (λ _ _, CallReturned (Main.ProxyResult 429 "{}" [] false))
                (Main.ProxyResult 429 "{}" [] false) eq_refl) as (Hstatus & Hcors & _).
    by split.
  - split; [reflexivity|].
    apply (Hawc "api/data/metar" (Some "198.51.100.7")
             (λ _, Main.RequestException "Connection refused") 0 ∅).
  - split; [reflexivity|].
    apply (Hlightning "?service=WMS" (Some "198.51.100.7") (λ _, Main.Timeout) 0 ∅).
Defined.

(** C5, as stated, fails in [server_code_fixed.py]: an upstream answer
    with status 204 reaches the caller as a 200. *)
Lemma fixed_handler_replaces_upstream_status :
  status (run (λ _, Returned 204 "")
              (ServerCodeFixed.proxy_noaa_weather [("path", "/geoserver/ows")])) = 200.
Proof. reflexivity. Qed.

(** C5, amended.  On the callable path, [client_code.py] relaying
    [main.py], an accepted request whose outbound call receives a response
    is answered with the status code and the text of that response,
    unmodified, whatever the status code.  In [server_code_fixed.py], a
    routed handler whose outbound call returns hands on the returned body
    unmodified. *)
Theorem upstream_answer_passes_through
    (query_params : dict) (remote_addr : option string)
    (net : string → Main.get_outcome) (now : Z) (request_cache : gmap string (list Z))
    (status_code : Z) (text : string) (response_headers : dict) :
  let path := get query_params "path" "" in
  let client_ip :=
    match remote_addr with
    | Some addr => if truthy addr then addr else "unknown"
    | None => "unknown"
    end in
  (Main.rate_limit_check client_ip now request_cache).1 = true →
  net ("https://nowcoast.noaa.gov/" +:+ path) =
    Main.Response status_code text response_headers →
  (let answer :=
     ClientCode.noaa_proxy_endpoint query_params remote_addr
       (ClientCode.call_proxy_noaa_weather net now request_cache) in
   status answer = status_code ∧ body answer = text) ∧
  (∀ handler (kwargs : dict) anvil_net url upstream_status response,
     handler ∈ fixed_handlers →
     outbound_url (handler kwargs) = Some url →
     anvil_net url = Returned upstream_status response →
     body (run anvil_net (handler kwargs)) = response).
Proof.
  cbv zeta. intros Haccepted Hnet. split.
  - unfold ClientCode.noaa_proxy_endpoint, ClientCode.call_proxy_noaa_weather,
      Main.proxy_noaa_weather. cbv zeta.
    destruct (Main.rate_limit_check _ now request_cache) as [allowed c'].
    cbn [fst] in Haccepted. subst allowed. cbn [negb fst].
    unfold Main.make_proxy_request. cbv zeta. cbn [run].
    by rewrite Hnet.
  - intros handler kwargs anvil_net url upstream_status response Hin Hurl Hanvil.
    pose proof (fixed_handler_answers handler kwargs Hin) as Hanswers.
    destruct (handler kwargs) as [answer|url' request_headers timeout k];
      [discriminate|].
    cbn [outbound_url] in Hurl. injection Hurl as ->.
    destruct Hanswers as [Hreturned _].
    destruct (Hreturned upstream_status response) as (_ & Hbody & _).
    cbn [run]. by rewrite Hanvil.
Qed.

(** An upstream 404 on the callable path reaches the caller as a 404, and
    a body returned to [server_code_fixed.py] reaches the caller as it
    is. *)
Lemma upstream_answer_passes_through_witness :
  (let answer :=
     ClientCode.noaa_proxy_endpoint [("path", "geoserver/ows")] (Some "198.51.100.7")
       (ClientCode.call_proxy_noaa_weather (λ _, Main.Response 404 "Not Found" []) 0 ∅) in
   status answer = 404 ∧ body answer = "Not Found") ∧
  body (run (λ _, Returned 200 "<WMS_Capabilities/>")
            (ServerCodeFixed.proxy_lightning_weather [("service", "WMS")]))
    = "<WMS_Capabilities/>".
Proof.
  destruct (upstream_answer_passes_through [("path", "geoserver/ows")]
              (Some "198.51.100.7") (λ _, Main.Response 404 "Not Found" []) 0 ∅
              404 "Not Found" []) as [Hcallable Hfixed];
    [vm_compute; reflexivity | reflexivity |].
  split; [exact Hcallable|].
  eapply (Hfixed ServerCodeFixed.proxy_lightning_weather [("service", "WMS")]
            (λ _, Returned 200 "<WMS_Capabilities/>"));
    [do 3 right; left | reflexivity | reflexivity].
Defined.

(** In [server_code_fixed.py] the status of such an answer is the
    constant 200, whatever the status of the upstream response. *)
Lemma fixed_handler_status_is_200 handler (kwargs : dict) net url upstream_status response :
  handler ∈ fixed_handlers →
  outbound_url (handler kwargs) = Some url →
  net url = Returned upstream_status response →
  status (run net (handler kwargs)) = 200.
Proof.
  intros Hin Hurl Hnet.
  pose proof (fixed_handler_answers handler kwargs Hin) as Hanswers.
  destruct (handler kwargs) as [answer|url' request_headers timeout k];
    [discriminate|].
  cbn [outbound_url] in Hurl. injection Hurl as ->.
  destruct Hanswers as [Hreturned _].
  destruct (Hreturned upstream_status response) as (Hstatus & _).
  cbn [run]. by rewrite Hnet.
Qed.

End Envelope.

(** ** The rate limiter under the traffic of several clients *)

Section Traffic.
Import Main.
Local Open Scope Z_scope.

Implicit Types (client_ip : string) (now : Z) (c : gmap string (list Z)).

(** The verdict for a client depends on that client's window only. *)
Lemma rate_limit_verdict_local client_ip now c c' :
  c !! client_ip = c' !! client_ip →
  (rate_limit_check client_ip now c).1 = (rate_limit_check client_ip now c').1.
Proof.
  intros Heq. rewrite !rate_limit_check_eq. cbn zeta. rewrite Heq.
  by case_bool_decide.
Qed.

Lemma rate_limit_run_other client_ip (requests : list (string * Z)) c :
  Forall (λ request, request.1 ≠ client_ip) requests →
  rate_limit_run requests c !! client_ip = c !! client_ip.
Proof.
  revert c. induction requests as [|[other now] requests IH]; intros c Hother; [done|].
  apply Forall_cons in Hother as [Hne Hother]. cbn [rate_limit_run].
  rewrite IH by done. by apply rate_limit_check_other.
Qed.

(** X1. Requests of other clients, however many and whenever made, change
    neither the window of a client nor the verdict on its next request. *)
Theorem other_clients_do_not_interfere client_ip now (requests : list (string * Z)) c :
  Forall (λ request, request.1 ≠ client_ip) requests →
  rate_limit_run requests c !! client_ip = c !! client_ip ∧
  (rate_limit_check client_ip now (rate_limit_run requests c)).1 =
    (rate_limit_check client_ip now c).1.
Proof.
  intros Hother. split; [by apply rate_limit_run_other|].
  apply rate_limit_verdict_local. by apply rate_limit_run_other.
Qed.

(** A thousand requests of one client exhaust its own quota and leave the
    first request of another client accepted. *)
Lemma other_clients_do_not_interfere_witness :
  (rate_limit_check "203.0.113.9" 5
     (rate_limit_run (replicate 1001 ("198.51.100.7", 0)) ∅)).1 = true ∧
  (rate_limit_check "198.51.100.7" 5
     (rate_limit_run (replicate 1001 ("198.51.100.7", 0)) ∅)).1 = false.
Proof.
  split; [|vm_compute; reflexivity].
  destruct (other_clients_do_not_interfere "203.0.113.9" 5
              (replicate 1001 ("198.51.100.7", 0)) ∅) as [_ Hverdict].
  - apply Forall_replicate. discriminate.
  - rewrite Hverdict. vm_compute. reflexivity.
Defined.

(** X2. Once every recorded timestamp of a client is [RATE_LIMIT_WINDOW] old
    or older, its next request is accepted and its window starts afresh
    with that request alone, however full the window was. *)
Theorem expired_window_reopens client_ip now c :
  (∀ t, t ∈ window c client_ip → RATE_LIMIT_WINDOW ≤ now - t) →
  rate_limit_check client_ip now c = (true, <[client_ip := [now]]> c).
Proof.
  intros Hexpired. rewrite rate_limit_check_eq. cbn zeta.
  rewrite filter_live_none by done.
  rewrite bool_decide_eq_false_2 by (cbn [length]; unfold RATE_LIMIT_MAX; lia).
  done.
Qed.

(** A client rejected at clock reading 899 with a thousand requests
    recorded at 0 is accepted at 900. *)
Lemma expired_window_reopens_witness :
  let c : gmap string (list Z) := {[ "198.51.100.7" := replicate 1000 0 ]} in
  (rate_limit_check "198.51.100.7" 899 c).1 = false ∧
  rate_limit_check "198.51.100.7" 900 c = (true, <[ "198.51.100.7" := [900] ]> c).
Proof.
  cbn zeta. split; [vm_compute; reflexivity|].
  apply expired_window_reopens.
  rewrite lookup_singleton_eq. cbn [default from_option id].
  intros t ->%elem_of_replicate_inv. unfold RATE_LIMIT_WINDOW. lia.
Defined.

(** One call keeps a window within the limit. *)
Lemma rate_limit_check_bounded client_ip now c other :
  Z.of_nat (length (window c other)) ≤ RATE_LIMIT_MAX →
  Z.of_nat (length (window (rate_limit_check client_ip now c).2 other)) ≤ RATE_LIMIT_MAX.
Proof.
  intros Hbound. destruct (decide (client_ip = other)) as [->|Hne].
  - rewrite rate_limit_check_eq. cbn zeta.
    pose proof (length_filter (live now) (window c other)) as Hfilter.
    case_bool_decide as Hfull; cbn [snd]; rewrite lookup_insert_eq;
      cbn [default from_option id]; [lia|].
    rewrite length_app. cbn [length]. lia.
  - by rewrite rate_limit_check_other.
Qed.

(** X3. Starting from the empty cache, whatever requests arrive from whatever
    clients at whatever clock readings, no client ever has more than
    [RATE_LIMIT_MAX] timestamps on record. *)
Theorem window_never_exceeds_limit (requests : list (string * Z)) client_ip :
  Z.of_nat (length (window (rate_limit_run requests ∅) client_ip)) ≤ RATE_LIMIT_MAX.
Proof.
  assert (Hgen : ∀ c, (∀ k, Z.of_nat (length (window c k)) ≤ RATE_LIMIT_MAX) →
                      ∀ k, Z.of_nat (length (window (rate_limit_run requests c) k))
                           ≤ RATE_LIMIT_MAX).
  { induction requests as [|[k now] requests IH]; intros c Hc; [done|].
    cbn [rate_limit_run]. apply IH. intros k'. by apply rate_limit_check_bounded. }
  apply Hgen. intros k. rewrite lookup_empty. cbn. unfold RATE_LIMIT_MAX. lia.
Qed.

(** One call records nothing but the clock reading of the request, under
    the key of the request. *)
Lemma rate_limit_check_records client_ip now c other t :
  t ∈ window (rate_limit_check client_ip now c).2 other →
  t ∈ window c other ∨ (other = client_ip ∧ t = now).
Proof.
  destruct (decide (client_ip = other)) as [->|Hne].
  - rewrite rate_limit_check_eq. cbn zeta.
    case_bool_decide as Hfull; cbn [snd]; rewrite lookup_insert_eq;
      cbn [default from_option id].
    + intros [_ Hin]%list_elem_of_filter. by left.
    + intros [[_ Hin]%list_elem_of_filter | ->%list_elem_of_singleton]%elem_of_app;
        [by left | by right].
  - rewrite rate_limit_check_other by done. by left.
Qed.

(** X4. Starting from the empty cache, every timestamp on record for a client
    is the clock reading of a request of that very client. *)
Theorem window_holds_own_requests (requests : list (string * Z)) client_ip t :
  t ∈ window (rate_limit_run requests ∅) client_ip → (client_ip, t) ∈ requests.
Proof.
  assert (Hgen : ∀ c, t ∈ window (rate_limit_run requests c) client_ip →
                      t ∈ window c client_ip ∨ (client_ip, t) ∈ requests).
  { induction requests as [|[k now] requests IH]; intros c Hin; [by left|].
    cbn [rate_limit_run] in Hin. apply IH in Hin as [Hin|Hin].
    - apply rate_limit_check_records in Hin as [Hin|[-> ->]]; [by left|].
      right. left.
    - right. by right. }
  intros Hin. apply Hgen in Hin as [Hin|Hin]; [|done].
  rewrite lookup_empty in Hin. by apply elem_of_nil in Hin.
Qed.

Lemma window_holds_own_requests_witness :
  let requests := [("198.51.100.7", 10); ("203.0.113.9", 20); ("198.51.100.7", 30)] in
  20 ∈ window (rate_limit_run requests ∅) "203.0.113.9" ∧
  ("203.0.113.9", 20) ∈ requests.
Proof.
  cbn zeta.
  assert (Hin : 20 ∈ window (rate_limit_run
                               [("198.51.100.7", 10); ("203.0.113.9", 20);
                                ("198.51.100.7", 30)] ∅) "203.0.113.9")
    by (vm_compute; left).
  split; [exact Hin|]. by apply window_holds_own_requests in Hin.
Defined.

Lemma rate_limit_check_dom client_ip now c :
  dom (rate_limit_check client_ip now c).2 = {[client_ip]} ∪ dom c.
Proof.
  rewrite rate_limit_check_eq. cbn zeta.
  case_bool_decide; cbn [snd]; apply dom_insert_L.
Qed.

(** X5. No client ever leaves the cache: after any traffic, the clients on
    record are those that were there before and those that made a
    request, so that [active_clients] never decreases, even when all the
    timestamps of a client have expired. *)
Theorem clients_are_never_forgotten (requests : list (string * Z)) c timestamp :
  dom (rate_limit_run requests c) = dom c ∪ list_to_set requests.*1 ∧
  (active_clients (get_weather_stats timestamp c)
   ≤ active_clients (get_weather_stats timestamp (rate_limit_run requests c)))%nat.
Proof.
  assert (Hdom : dom (rate_limit_run requests c) = dom c ∪ list_to_set requests.*1).
  { revert c. induction requests as [|[k now] requests IH]; intros c.
    - cbn. by rewrite (right_id_L ∅ (∪)).
    - cbn [rate_limit_run]. rewrite IH, rate_limit_check_dom. cbn.
      by rewrite (comm_L (∪) {[k]} (dom c)), (assoc_L (∪)). }
  split; [exact Hdom|]. cbn [active_clients get_weather_stats].
  rewrite <- !(size_dom (D := gset string)). apply subseteq_size.
  rewrite Hdom. apply union_subseteq_l.
Qed.

(** The sum behind [total_requests]. *)
Local Abbreviation recorded c :=
  (map_fold (λ _ (requests : list Z) acc, (length requests + acc)%nat) 0%nat c).

Lemma recorded_insert client_ip (w : list Z) c :
  (recorded (<[client_ip := w]> c) + length (window c client_ip)
   = recorded c + length w)%nat.
Proof.
  assert (Hfresh : ∀ (c0 : gmap string (list Z)) (w0 : list Z),
            c0 !! client_ip = None →
            recorded (<[client_ip := w0]> c0) = (length w0 + recorded c0)%nat).
  { intros c0 w0 Hnone.
    apply (map_fold_insert_L (λ _ (requests : list Z) acc, (length requests + acc)%nat)
             0%nat client_ip w0 c0); [|done].
    intros. lia. }
  destruct (c !! client_ip) as [old|] eqn:Hold; cbn [default from_option id length].
  - rewrite <- (insert_delete_eq c).
    rewrite <- (insert_delete_id c client_ip old Hold) at 2.
    rewrite !Hfresh by apply lookup_delete_eq. lia.
  - rewrite Hfresh by done. lia.
Qed.

(** X6. [total_requests] after a call: what was recorded before, minus the
    timestamps the call pruned, plus one if the request was accepted.  A
    rejected request never raises it, an accepted one raises it by one at
    most. *)
Theorem total_requests_accounting client_ip now c timestamp :
  let before := get_weather_stats timestamp c in
  let after := get_weather_stats timestamp (rate_limit_check client_ip now c).2 in
  let pruned := filter (live now) (window c client_ip) in
  (total_requests after + length (window c client_ip) =
   total_requests before + length pruned
   + (if (rate_limit_check client_ip now c).1 then 1 else 0))%nat ∧
  (total_requests after
   ≤ total_requests before + (if (rate_limit_check client_ip now c).1 then 1 else 0))%nat.
Proof.
  cbn zeta. cbn [total_requests get_weather_stats].
  rewrite rate_limit_check_eq. cbn zeta.
  pose proof (length_filter (live now) (window c client_ip)) as Hfilter.
  case_bool_decide as Hfull; cbn [fst snd].
  - pose proof (recorded_insert client_ip (filter (live now) (window c client_ip)) c).
    lia.
  - pose proof (recorded_insert client_ip
                  (filter (live now) (window c client_ip) ++ [now]) c) as Hrec.
    rewrite length_app in Hrec. cbn [length] in Hrec. lia.
Qed.

End Traffic.

(** ** The routes of [client_code.py] served by [main.py] *)

Section Routes.
Import Py Anvil ClientRoutes.
Local Open Scope Z_scope.

(** One goal per route, the callable and the endpoint unfolded. *)
Ltac by_route :=
  unfold routes;
  repeat apply Forall_cons_2; [..|apply Forall_nil_2];
  cbn [endpoint callable prefix fallback_content_type];
  unfold Main.proxy_noaa_weather, Main.proxy_aviation_weather, Main.proxy_buoy_data,
         Main.proxy_lightning_data, ClientCode.noaa_proxy_endpoint, awc_proxy_endpoint,
         buoy_proxy_endpoint, lightning_proxy_endpoint, served_by, client_ip_of;
  cbv zeta.

Lemma get_path_only (path : string) : get [("path", path)] "path" "" = path.
Proof. reflexivity. Qed.

(** The endpoint of the first route looks at the [path] parameter only. *)
Lemma noaa_proxy_endpoint_path (query_params : dict) remote_addr server_call :
  ClientCode.noaa_proxy_endpoint query_params remote_addr server_call =
  ClientCode.noaa_proxy_endpoint [("path", get query_params "path" "")]
                                 remote_addr server_call.
Proof. reflexivity. Qed.

(** X7. Every callable of [main.py] consults the rate limiter first and
    leaves the cache as [rate_limit_check] left it; it makes an outbound
    call exactly when the request is accepted, and then to its prefix
    followed by the path as it came, with timeout 30: nothing is put
    between the two and nothing is taken off the path. *)
Theorem callables_forward_iff_accepted :
  Forall (λ r,
            ∀ path client_ip now request_cache,
              let verdict := (Main.rate_limit_check client_ip now request_cache).1 in
              (callable r path client_ip now request_cache).2 =
                (Main.rate_limit_check client_ip now request_cache).2 ∧
              outbound_url (callable r path client_ip now request_cache).1 =
                (if verdict then Some (prefix r +:+ path) else None) ∧
              (verdict = true →
               ∃ request_headers k,
                 (callable r path client_ip now request_cache).1 =
                   Call (prefix r +:+ path) request_headers 30 k))
         routes.
Proof.
  by_route; intros path client_ip now request_cache;
    destruct (Main.rate_limit_check client_ip now request_cache) as [[] c'];
    cbn [negb fst snd outbound_url Main.make_proxy_request];
    (split; [done|]); (split; [done|]); intros; (done || by eauto).
Qed.

Lemma callables_forward_iff_accepted_witness :
  outbound_url (Main.proxy_noaa_weather "/geoserver/ows" "198.51.100.7" 0 ∅).1 =
    Some "https://nowcoast.noaa.gov//geoserver/ows" ∧
  ∃ request_headers k,
    (Main.proxy_lightning_data "?service=WMS" "198.51.100.7" 0 ∅).1 =
      Call "https://nowcoast.noaa.gov/geoserver/observations/lightning_detection/ows?service=WMS"
           request_headers 30 k.
Proof.
  pose proof callables_forward_iff_accepted as Hroutes. unfold routes in Hroutes.
  apply Forall_cons in Hroutes as [Hnoaa Hroutes].
  do 2 apply Forall_cons in Hroutes as [_ Hroutes].
  apply Forall_cons in Hroutes as [Hlightning _].
  split.
  - destruct (Hnoaa "/geoserver/ows" "198.51.100.7" 0 ∅) as (_ & Hurl & _).
    exact Hurl.
  - destruct (Hlightning "?service=WMS" "198.51.100.7" 0 ∅) as (_ & _ & Hcall).
    apply Hcall. vm_compute. reflexivity.
Defined.



(** X9. What each route answers when it is served by [main.py]: the
    upstream's status and text, labelled with the upstream's
    [Content-Type] header if it has one under exactly that name and with
    the fallback of the route otherwise; or the 429, 408 or 500 made up by
    the proxy, labelled [application/json] on every route, the buoy and
    lightning routes included. *)
Theorem relayed_answer_and_content_type :
  Forall (λ r,
            ∀ path remote_addr net now request_cache,
              let answer :=
                endpoint r path remote_addr (served_by (callable r) net now request_cache) in
              let content_type := get (headers answer) "Content-Type" "" in
              if (Main.rate_limit_check (client_ip_of remote_addr) now request_cache).1
              then match net (prefix r +:+ path) with
                   | Main.Response status_code text response_headers =>
                       status answer = status_code ∧ body answer = text ∧
                       content_type =
                         get response_headers "Content-Type" (fallback_content_type r)
                   | Main.Timeout =>
                       status answer = 408 ∧
                       py_in "Request timeout" (body answer) = true ∧
                       content_type = "application/json"
                   | Main.RequestException e =>
                       status answer = 500 ∧ content_type = "application/json"
                   end
              else status answer = 429 ∧
                   py_in "Rate limit exceeded" (body answer) = true ∧
                   content_type = "application/json")
         routes.
Proof.
  by_route; intros path remote_addr net now request_cache;
    rewrite ?get_path_only;
    match goal with
    | |- context [Main.rate_limit_check ?ip now request_cache] =>
        destruct (Main.rate_limit_check ip now request_cache) as [[] c']
    end;
    cbn [negb fst snd run Main.make_proxy_request];
    try match goal with |- context [net ?url] => destruct (net url) end;
    by repeat split.
Qed.

(** An upstream header spelled [content-type] is not found, so the buoy
    route falls back to [text/plain]; and a rejected lightning request is
    labelled [application/json]. *)
Lemma relayed_answer_and_content_type_witness :
  get (headers (buoy_proxy_endpoint "data/realtime2/42001.txt" (Some "198.51.100.7")
                  (served_by Main.proxy_buoy_data
                     (λ _, Main.Response 200 "#YY MM DD" [("content-type", "text/csv")])
                     0 ∅)))
      "Content-Type" "" = "text/plain" ∧
  get (headers (lightning_proxy_endpoint "?service=WMS" (Some "198.51.100.7")
                  (served_by Main.proxy_lightning_data (λ _, Main.Response 200 "<xml/>" [])
                     5 {[ "198.51.100.7" := replicate 1000 0 ]})))
      "Content-Type" "" = "application/json".
Proof.
  pose proof relayed_answer_and_content_type as Hroutes. unfold routes in Hroutes.
  do 2 apply Forall_cons in Hroutes as [_ Hroutes].
  apply Forall_cons in Hroutes as [Hbuoy Hroutes].
  apply Forall_cons in Hroutes as [Hlightning _].
  split.
  - specialize (Hbuoy "data/realtime2/42001.txt" (Some "198.51.100.7")
                  (λ _, Main.Response 200 "#YY MM DD" [("content-type", "text/csv")]) 0 ∅).
    cbv zeta in Hbuoy.
    replace (Main.rate_limit_check (client_ip_of (Some "198.51.100.7")) 0 ∅).1
      with true in Hbuoy by (vm_compute; reflexivity).
    by destruct Hbuoy as (_ & _ & Hct).
  - specialize (Hlightning "?service=WMS" (Some "198.51.100.7")
                  (λ _, Main.Response 200 "<xml/>" []) 5
                  {[ "198.51.100.7" := replicate 1000 0 ]}).
    cbv zeta in Hlightning.
    replace (Main.rate_limit_check (client_ip_of (Some "198.51.100.7")) 5
               {[ "198.51.100.7" := replicate 1000 0 ]}).1
      with false in Hlightning by (vm_compute; reflexivity).
    by destruct Hlightning as (_ & _ & Hct).
Defined.

Lemma chars_append (a b : string) :
  String.list_ascii_of_string (a +:+ b) =
  String.list_ascii_of_string a ++ String.list_ascii_of_string b.
Proof.
  induction a as [|x a IH]; [done|].
  rewrite append_cons. cbn [String.list_ascii_of_string app]. by rewrite IH.
Qed.

(** The characters from the space to the tilde. *)
Local Abbreviation printable :=
  (λ ch : ascii, (32 ≤ N_of_ascii ch)%N ∧ (N_of_ascii ch ≤ 126)%N).

Lemma json_escape_char_printable (ch : ascii) :
  Forall printable (String.list_ascii_of_string (json_escape_char ch)).
Proof.
  destruct ch as [[] [] [] [] [] [] [] []];
    apply (bool_decide_unpack _); vm_compute; exact I.
Qed.

Lemma json_string_printable (s : string) :
  Forall printable (String.list_ascii_of_string (json_string s)).
Proof.
  unfold json_string. cbn [String.list_ascii_of_string].
  apply Forall_cons_2; [by vm_compute|]. rewrite chars_append.
  apply Forall_app_2; [|apply Forall_cons_2; [by vm_compute | apply Forall_nil_2]].
  induction s as [|x s IH]; [apply Forall_nil_2|].
  cbn [json_escape]. rewrite chars_append.
  apply Forall_app_2; [apply json_escape_char_printable | exact IH].
Qed.

(** [json.dumps] of a dict of strings gives printable ASCII only. *)
Lemma json_dumps_printable (d : dict) :
  Forall printable (String.list_ascii_of_string (json_dumps d)).
Proof.
  unfold json_dumps. rewrite !chars_append.
  apply Forall_app_2; [apply Forall_cons_2; [by vm_compute | apply Forall_nil_2]|].
  apply Forall_app_2; [|apply Forall_cons_2; [by vm_compute | apply Forall_nil_2]].
  induction d as [|kv d IH]; [apply Forall_nil_2|].
  assert (Hitem : Forall printable
            (String.list_ascii_of_string (json_string kv.1 +:+ ": " +:+ json_string kv.2))).
  { rewrite !chars_append. apply Forall_app_2; [apply json_string_printable|].
    apply Forall_app_2; [|apply json_string_printable].
    apply (bool_decide_unpack _). vm_compute. exact I. }
  destruct d as [|kv' d]; [exact Hitem|]. cbn [map] in *.
  change (join ", " (?x :: ?y :: ?l)) with (x +:+ ", " +:+ join ", " (y :: l)).
  rewrite (chars_append (_ +:+ _)), (chars_append ", ").
  apply Forall_app_2; [exact Hitem|].
  apply Forall_app_2; [apply (bool_decide_unpack _); vm_compute; exact I | exact IH].
Qed.

(** X10. Whatever the text of the exception, be it with quotes, backslashes,
    line breaks or characters beyond ASCII, every body that a callable
    makes up itself (429, 408 or 500) consists of printable ASCII
    characters only. *)
Theorem made_up_bodies_are_printable_ascii :
  Forall (λ r,
            ∀ path client_ip now request_cache net ch,
              let result := run net (callable r path client_ip now request_cache).1 in
              Main.success result = false →
              ch ∈ String.list_ascii_of_string (Main.content result) →
              (32 ≤ N_of_ascii ch)%N ∧ (N_of_ascii ch ≤ 126)%N)
         routes.
Proof.
  by_route; intros path client_ip now request_cache net ch;
    destruct (Main.rate_limit_check client_ip now request_cache) as [[] c'];
    cbn [negb fst snd run Main.make_proxy_request];
    try match goal with |- context [net ?url] => destruct (net url) end;
    cbn [Main.success Main.content]; intros Hfailed Hin; try discriminate;
    by eapply (proj1 (Forall_forall _ _) (json_dumps_printable _)).
Qed.

Lemma made_up_bodies_are_printable_ascii_witness :
  Forall (λ ch, (32 ≤ N_of_ascii ch)%N ∧ (N_of_ascii ch ≤ 126)%N)
    (String.list_ascii_of_string
       (Main.content
          (run (λ _, Main.RequestException
                       (String (ascii_of_N 34) (String (ascii_of_N 10)
                          (String (ascii_of_N 233) "chec"))))
               (Main.proxy_noaa_weather "geoserver/ows" "198.51.100.7" 0 ∅).1))).
Proof.
  pose proof made_up_bodies_are_printable_ascii as Hroutes. unfold routes in Hroutes.
  apply Forall_cons in Hroutes as [Hnoaa _].
  apply Forall_forall. intros ch Hin.
  eapply (Hnoaa "geoserver/ows" "198.51.100.7" 0 ∅); [|exact Hin].
  vm_compute. reflexivity.
Defined.

(** X11. Callers without a remote address, or with an empty one, are all
    counted under the one key "unknown": once that window is full, each
    of them is answered 429 on every route, without any outbound call. *)
Theorem anonymous_callers_share_one_window
    (remote_addr : option string) (net : string → Main.get_outcome) (now : Z)
    (request_cache : gmap string (list Z)) :
  remote_addr = None ∨ remote_addr = Some "" →
  (Main.rate_limit_check "unknown" now request_cache).1 = false →
  Forall (λ r,
            ∀ path,
              let answer :=
                endpoint r path remote_addr (served_by (callable r) net now request_cache) in
              status answer = 429 ∧
              py_in "Rate limit exceeded" (body answer) = true ∧
              outbound_url (callable r path (client_ip_of remote_addr)
                              now request_cache).1 = None)
         routes.
Proof.
  intros Hanonymous Hfull.
  destruct Hanonymous as [-> | ->]; by_route; intros path; cbn [truthy];
    rewrite ?get_path_only;
    destruct (Main.rate_limit_check "unknown" now request_cache) as [verdict c'];
    cbn [fst] in Hfull; subst verdict; by repeat split.
Qed.

Lemma anonymous_callers_share_one_window_witness :
  let c : gmap string (list Z) := {[ "unknown" := replicate 1000 0 ]} in
  status (buoy_proxy_endpoint "data/realtime2/42001.txt" None
            (served_by Main.proxy_buoy_data (λ _, Main.Response 200 "ok" []) 5 c)) = 429 ∧
  status (lightning_proxy_endpoint "?service=WMS" (Some "")
            (served_by Main.proxy_lightning_data (λ _, Main.Response 200 "ok" []) 5 c)) = 429.
Proof.
  cbn zeta.
  assert (Hfull : (Main.rate_limit_check "unknown" 5
                     {[ "unknown" := replicate 1000 0 ]}).1 = false)
    by (vm_compute; reflexivity).
  split.
  - pose proof (anonymous_callers_share_one_window None (λ _, Main.Response 200 "ok" []) 5
                  {[ "unknown" := replicate 1000 0 ]} (or_introl eq_refl) Hfull) as Hroutes.
    unfold routes in Hroutes.
    do 2 apply Forall_cons in Hroutes as [_ Hroutes].
    apply Forall_cons in Hroutes as [Hbuoy _].
    by destruct (Hbuoy "data/realtime2/42001.txt") as [Hstatus _].
  - pose proof (anonymous_callers_share_one_window (Some "")
                  (λ _, Main.Response 200 "ok" []) 5
                  {[ "unknown" := replicate 1000 0 ]} (or_intror eq_refl) Hfull) as Hroutes.
    unfold routes in Hroutes.
    do 3 apply Forall_cons in Hroutes as [_ Hroutes].
    apply Forall_cons in Hroutes as [Hlightning _].
    by destruct (Hlightning "?service=WMS") as [Hstatus _].
Defined.

(** X12. On the first route a request without a [path] parameter is not
    turned away: once accepted by the rate limiter it is forwarded to the
    root of the upstream, whose answer the caller receives. *)
Theorem missing_path_goes_to_upstream_root
    (query_params : dict) (remote_addr : option string)
    (net : string → Main.get_outcome) (now : Z) (request_cache : gmap string (list Z))
    (status_code : Z) (text : string) (response_headers : dict) :
  has_key query_params "path" = false →
  (Main.rate_limit_check (client_ip_of remote_addr) now request_cache).1 = true →
  net "https://nowcoast.noaa.gov/" = Main.Response status_code text response_headers →
  let answer :=
    ClientCode.noaa_proxy_endpoint query_params remote_addr
      (served_by Main.proxy_noaa_weather net now request_cache) in
  outbound_url (Main.proxy_noaa_weather (get query_params "path" "")
                  (client_ip_of remote_addr) now request_cache).1
    = Some "https://nowcoast.noaa.gov/" ∧
  status answer = status_code ∧ body answer = text.
Proof.
  intros Hmissing Haccepted Hnet. cbv zeta.
  unfold ClientCode.noaa_proxy_endpoint, served_by, Main.proxy_noaa_weather. cbv zeta.
  rewrite (get_without_key _ _ _ Hmissing).
  fold (client_ip_of remote_addr).
  destruct (Main.rate_limit_check (client_ip_of remote_addr) now request_cache)
    as [verdict c'].
  cbn [fst] in Haccepted. subst verdict.
  cbn [negb fst run Main.make_proxy_request outbound_url].
  change ("https://nowcoast.noaa.gov/" +:+ "") with "https://nowcoast.noaa.gov/".
  by rewrite Hnet.
Qed.

Lemma missing_path_goes_to_upstream_root_witness :
  status (ClientCode.noaa_proxy_endpoint [("service", "WMS")] (Some "198.51.100.7")
            (served_by Main.proxy_noaa_weather
               (λ url, if String.eqb url "https://nowcoast.noaa.gov/"
                       then Main.Response 200 "<html/>" []
                       else Main.RequestException "unreachable") 0 ∅)) = 200.
Proof.
  destruct (missing_path_goes_to_upstream_root [("service", "WMS")] (Some "198.51.100.7")
              (λ url, if String.eqb url "https://nowcoast.noaa.gov/"
                      then Main.Response 200 "<html/>" []
                      else Main.RequestException "unreachable") 0 ∅ 200 "<html/>" [])
    as (_ & Hstatus & _); [reflexivity | vm_compute; reflexivity | reflexivity |].
  exact Hstatus.
Defined.

End Routes.

(** ** The [http_endpoint] handlers as instances of one handler *)

Section Forwarding.
Import Py Anvil Spec.
Local Open Scope Z_scope.

(** Unfolds a handler and the common handler, and splits on the tests
    they share. *)
Ltac same_handler kwargs :=
  unfold forwarding_handler, request_url, append_query, with_leading_slash,
         forwarded_params;
  destruct (truthy (get kwargs "path" "")); cbn [negb]; [|reflexivity];
  destruct (startswith (get kwargs "path" "") "/"); cbn [negb];
  by destruct (_ <$> _).

Lemma fixed_noaa_forwards (kwargs : dict) :
  ServerCodeFixed.proxy_noaa_weather kwargs =
  forwarding_handler "https://nowcoast.noaa.gov"
    (λ request_url response,
       mkHttpResponse 200 response
         [("Content-Type",
           if py_in "wms" (lower request_url) || py_in "getmap" (lower request_url)
           then "image/png"
           else if py_in "xml" (lower request_url)
                   || py_in "capabilities" (lower request_url)
                then "application/xml"
                else "application/json");
          ("Access-Control-Allow-Origin", "*");
          ("Access-Control-Allow-Methods", "GET, POST, OPTIONS");
          ("Access-Control-Allow-Headers",
           "Content-Type, Authorization, X-Requested-With")])
    kwargs.
Proof. unfold ServerCodeFixed.proxy_noaa_weather. same_handler kwargs. Qed.

Lemma fixed_aviation_forwards (kwargs : dict) :
  ServerCodeFixed.proxy_aviation_weather kwargs =
  forwarding_handler "https://aviationweather.gov"
    (λ _ response,
       mkHttpResponse 200 response
         [("Content-Type", "application/json");
          ("Access-Control-Allow-Origin", "*");
          ("Access-Control-Allow-Methods", "GET, POST, OPTIONS");
          ("Access-Control-Allow-Headers",
           "Content-Type, Authorization, X-Requested-With")])
    kwargs.
Proof. unfold ServerCodeFixed.proxy_aviation_weather. same_handler kwargs. Qed.

Lemma correct_noaa_forwards (kwargs : dict) :
  ServerCodeCorrect.proxy_noaa_weather kwargs =
  forwarding_handler "https://nowcoast.noaa.gov"
    (λ request_url response,
       mkHttpResponse 200 response
         [("Content-Type",
           if py_in "wms" (lower request_url) || py_in "getmap" (lower request_url)
           then "image/png"
           else if py_in "xml" (lower request_url)
                   || py_in "capabilities" (lower request_url)
                then "application/xml"
                else "application/json");
          ("Access-Control-Allow-Origin", "http://localhost:8080");
          ("Cache-Control", "no-cache")])
    kwargs.
Proof. unfold ServerCodeCorrect.proxy_noaa_weather. same_handler kwargs. Qed.

Lemma correct_aviation_forwards (kwargs : dict) :
  ServerCodeCorrect.proxy_aviation_weather kwargs =
  forwarding_handler "https://aviationweather.gov"
    (λ _ response,
       mkHttpResponse 200 response
         [("Content-Type", "application/json");
          ("Access-Control-Allow-Origin", "http://localhost:8080");
          ("Cache-Control", "no-cache")])
    kwargs.
Proof. unfold ServerCodeCorrect.proxy_aviation_weather. same_handler kwargs. Qed.

Lemma correct_buoy_forwards (kwargs : dict) :
  ServerCodeCorrect.proxy_buoy_weather kwargs =
  forwarding_handler "https://www.ndbc.noaa.gov"
    (λ _ response,
       mkHttpResponse 200 response
         [("Content-Type", "text/plain");
          ("Access-Control-Allow-Origin", "http://localhost:8080");
          ("Cache-Control", "no-cache")])
    kwargs.
Proof. unfold ServerCodeCorrect.proxy_buoy_weather. same_handler kwargs. Qed.

Lemma truthy_iff (s : string) : s ≠ "" ↔ truthy s = true.
Proof. by destruct s. Qed.

Lemma append_nil_r (s : string) : s +:+ "" = s.
Proof. induction s as [|x s IH]; [done|]. by rewrite append_cons, IH. Qed.

Lemma lower_append (a b : string) : lower (a +:+ b) = lower a +:+ lower b.
Proof.
  induction a as [|x a IH]; [done|].
  rewrite append_cons. cbn [lower]. by rewrite append_cons, IH.
Qed.

Lemma py_in_trans (a b c : string) :
  py_in a b = true → py_in b c = true → py_in a c = true.
Proof.
  rewrite !py_in_iff. intros (b1 & b2 & ->) (c1 & c2 & ->).
  exists (c1 +:+ b1), (b2 +:+ c2). by rewrite !append_assoc.
Qed.

(** Lower-casing keeps a text inside the text it occurs in. *)
Lemma py_in_lower (a b : string) :
  py_in a b = true → py_in (lower a) (lower b) = true.
Proof.
  rewrite !py_in_iff. intros (before & after & ->).
  exists (lower before), (lower after). by rewrite !lower_append.
Qed.

Lemma join_cons_nonempty (sep x : string) (rest : list string) :
  rest ≠ [] → join sep (x :: rest) = x +:+ sep +:+ join sep rest.
Proof. by destruct rest. Qed.

(** Joining cannot tell an element that contains the separator from two
    elements. *)
Lemma join_merge (sep a b : string) (l1 l2 : list string) :
  join sep (l1 ++ (a +:+ sep +:+ b) :: l2) = join sep (l1 ++ a :: b :: l2).
Proof.
  induction l1 as [|x l1 IH].
  - cbn [app]. rewrite (join_cons_nonempty sep a) by done.
    destruct l2 as [|y l2]; [done|].
    rewrite !(join_cons_nonempty sep _ (y :: l2)) by done.
    by rewrite !append_assoc.
  - cbn [app]. rewrite !(join_cons_nonempty sep x) by (by destruct l1).
    by rewrite IH.
Qed.

Lemma get_skip (pre post : dict) (k v key default : string) :
  k ≠ key →
  get (pre ++ (k, v) :: post) key default = get (pre ++ post) key default.
Proof.
  intros Hne. induction pre as [|[k0 v0] pre IH]; cbn [app get].
  - apply String.eqb_neq in Hne. by rewrite Hne.
  - by rewrite IH.
Qed.

Lemma forwarded_params_app (l1 l2 : dict) :
  forwarded_params (l1 ++ l2) = forwarded_params l1 ++ forwarded_params l2.
Proof. unfold forwarded_params. by rewrite filter_app, fmap_app. Qed.

Lemma forwarded_params_cons (k v : string) (l : dict) :
  k ≠ "path" → forwarded_params ((k, v) :: l) = (k +:+ "=" +:+ v) :: forwarded_params l.
Proof. intros Hne. unfold forwarded_params. by rewrite filter_cons_True. Qed.

(** What a handler appends to its URL depends on the parameters through
    their joined text only, once there is a parameter. *)
Lemma query_suffix_eq (url sep : string) (l1 l2 : list string) :
  l1 ≠ [] → l2 ≠ [] → join "&" l1 = join "&" l2 →
  match l1 with [] => url | _ => url +:+ sep +:+ join "&" l1 end =
  match l2 with [] => url | _ => url +:+ sep +:+ join "&" l2 end.
Proof. intros H1 H2 Hjoin. destruct l1, l2; try done. by rewrite Hjoin. Qed.

(** X13. The forwarded parameters are not encoded: a value that contains
    [&key=value] reaches the upstream as a parameter of its own.  Every
    handler that forwards parameters treats the request with the one
    parameter [k = v&k'=v'] exactly as the request with the two parameters
    [k = v] and [k' = v']. *)
Theorem ampersand_in_value_splits_parameter (pre post : dict) (k v k' v' : string) :
  k ≠ "path" → k' ≠ "path" →
  Forall (λ handler,
            handler (pre ++ (k, v +:+ "&" +:+ k' +:+ "=" +:+ v') :: post) =
            handler (pre ++ (k, v) :: (k', v') :: post))
         query_forwarding_handlers.
Proof.
  intros Hk Hk'.
  set (one := pre ++ (k, v +:+ "&" +:+ k' +:+ "=" +:+ v') :: post).
  set (two := pre ++ (k, v) :: (k', v') :: post).
  assert (Hpath : get one "path" "" = get two "path" "").
  { unfold one, two. by rewrite !get_skip. }
  assert (Hsome1 : forwarded_params one ≠ []).
  { unfold one. rewrite forwarded_params_app, forwarded_params_cons by done.
    by destruct (forwarded_params pre). }
  assert (Hsome2 : forwarded_params two ≠ []).
  { unfold two. rewrite forwarded_params_app, forwarded_params_cons by done.
    by destruct (forwarded_params pre). }
  assert (Hjoin : join "&" (forwarded_params one) = join "&" (forwarded_params two)).
  { unfold one, two. rewrite !forwarded_params_app, !forwarded_params_cons by done.
    rewrite <- join_merge. by rewrite !append_assoc. }
  assert (Hall1 : (λ kv : string * string, kv.1 +:+ "=" +:+ kv.2) <$> one ≠ [])
    by (unfold one; rewrite fmap_app; by destruct (_ <$> pre)).
  assert (Hall2 : (λ kv : string * string, kv.1 +:+ "=" +:+ kv.2) <$> two ≠ [])
    by (unfold two; rewrite fmap_app; by destruct (_ <$> pre)).
  assert (Hjoin_all : join "&" ((λ kv : string * string, kv.1 +:+ "=" +:+ kv.2) <$> one) =
                      join "&" ((λ kv : string * string, kv.1 +:+ "=" +:+ kv.2) <$> two)).
  { unfold one, two. rewrite !fmap_app, !fmap_cons. cbn [fst snd].
    rewrite <- join_merge. by rewrite !append_assoc. }
  assert (Hurl : ∀ base_url, request_url base_url one = request_url base_url two).
  { intros base_url. unfold request_url, append_query. rewrite Hpath.
    by apply query_suffix_eq. }
  assert (Hcommon : ∀ base_url answer,
            forwarding_handler base_url answer one = forwarding_handler base_url answer two).
  { intros base_url answer. unfold forwarding_handler. by rewrite Hpath, Hurl. }
  unfold query_forwarding_handlers.
  repeat apply Forall_cons_2; [..|apply Forall_nil_2].
  - by rewrite !fixed_noaa_forwards.
  - by rewrite !fixed_aviation_forwards.
  - unfold ServerCodeFixed.proxy_lightning_weather. cbv zeta.
    by rewrite (query_suffix_eq _ "?" _ _ Hall1 Hall2 Hjoin_all).
  - by rewrite !correct_noaa_forwards.
  - by rewrite !correct_aviation_forwards.
  - by rewrite !correct_buoy_forwards.
  - unfold ServerCodeCorrect.proxy_lightning_weather. cbv zeta. rewrite Hpath.
    fold (forwarded_params one). fold (forwarded_params two).
    by rewrite (query_suffix_eq _ "?" _ _ Hsome1 Hsome2 Hjoin).
Qed.

Lemma ampersand_in_value_splits_parameter_witness :
  outbound_url (ServerCodeFixed.proxy_noaa_weather
                  [("path", "geoserver/ows"); ("layers", "radar&request=GetMap")]) =
  outbound_url (ServerCodeFixed.proxy_noaa_weather
                  [("path", "geoserver/ows"); ("layers", "radar"); ("request", "GetMap")]).
Proof.
  pose proof (ampersand_in_value_splits_parameter [("path", "geoserver/ows")] []
                "layers" "radar" "request" "GetMap") as Hall.
  unfold query_forwarding_handlers in Hall.
  apply Forall_cons in Hall as [Hnoaa _]; [| discriminate | discriminate].
  cbn [app] in Hnoaa.
  change ("radar" +:+ "&" +:+ "request" +:+ "=" +:+ "GetMap")
    with "radar&request=GetMap" in Hnoaa.
  by rewrite Hnoaa.
Defined.

(** X14. A handler that demands a path answers a request whose [path] is
    missing or empty with 400 and the text "Missing 'path' parameter",
    without headers and without any outbound call; with any other path it
    makes an outbound call. *)
Theorem missing_path_is_answered_400 :
  Forall (λ handler,
            ∀ kwargs : dict,
              (get kwargs "path" "" = "" →
               handler kwargs = Ret (mkHttpResponse 400 "Missing 'path' parameter" [])) ∧
              (get kwargs "path" "" ≠ "" → is_Some (outbound_url (handler kwargs))))
         path_demanding_handlers.
Proof.
  unfold path_demanding_handlers, remainder_path_handlers. cbn [app].
  repeat apply Forall_cons_2; [..|apply Forall_nil_2]; intros kwargs;
    unfold ServerCodeFixed.proxy_noaa_weather, ServerCodeFixed.proxy_aviation_weather,
           ServerCodeFixed.proxy_buoy_weather, ServerCodeCorrect.proxy_noaa_weather,
           ServerCodeCorrect.proxy_aviation_weather, ServerCodeCorrect.proxy_buoy_weather,
           ServerCodeCorrect.proxy_lightning_weather;
    destruct (get kwargs "path" "") as [|x path]; cbn [truthy negb];
    (split; [done|]); intros Hpath; by (done || cbn; eauto).
Qed.

(** A [path] parameter that is present but empty counts as missing, and
    the other parameters do not make up for it. *)
Lemma missing_path_is_answered_400_witness :
  run (λ _, Returned 200 "{}")
      (ServerCodeCorrect.proxy_buoy_weather [("path", ""); ("format", "txt")])
    = mkHttpResponse 400 "Missing 'path' parameter" [] ∧
  is_Some (outbound_url (ServerCodeFixed.proxy_aviation_weather [("path", "api/data/metar")])).
Proof.
  pose proof missing_path_is_answered_400 as Hall.
  unfold path_demanding_handlers, remainder_path_handlers in Hall. cbn [app] in Hall.
  apply Forall_cons in Hall as [_ Hall].
  apply Forall_cons in Hall as [Haviation Hall].
  do 3 apply Forall_cons in Hall as [_ Hall].
  apply Forall_cons in Hall as [Hbuoy _].
  split.
  - destruct (Hbuoy [("path", ""); ("format", "txt")]) as [Hmissing _].
    by rewrite Hmissing.
  - destruct (Haviation [("path", "api/data/metar")]) as [_ Hpresent].
    by apply Hpresent.
Defined.

(** X15. In [server_code_correct.py] all four routes follow the one forwarding
    rule: with a path, the marine/radar, aviation and buoy handlers
    request the origin, the path with its leading slash, and every inbound
    parameter but [path]; the lightning handler requests its constant URL
    and every inbound parameter but [path].  The value of [path] has no
    effect on what the lightning handler does, as long as there is one. *)
Theorem server_code_correct_forwarding (kwargs : dict) :
  let path := get kwargs "path" "" in
  let lightning_url :=
    "https://nowcoast.noaa.gov/geoserver/observations/lightning_detection/ows" in
  outbound_url (ServerCodeCorrect.proxy_noaa_weather kwargs) =
    (if truthy path then Some (request_url "https://nowcoast.noaa.gov" kwargs) else None) ∧
  outbound_url (ServerCodeCorrect.proxy_aviation_weather kwargs) =
    (if truthy path then Some (request_url "https://aviationweather.gov" kwargs) else None) ∧
  outbound_url (ServerCodeCorrect.proxy_buoy_weather kwargs) =
    (if truthy path then Some (request_url "https://www.ndbc.noaa.gov" kwargs) else None) ∧
  outbound_url (ServerCodeCorrect.proxy_lightning_weather kwargs) =
    (if truthy path
     then Some (match forwarded_params kwargs with
                | [] => lightning_url
                | _ => lightning_url +:+ "?" +:+ join "&" (forwarded_params kwargs)
                end)
     else None) ∧
  (∀ p p', p ≠ "" → p' ≠ "" →
     ServerCodeCorrect.proxy_lightning_weather (setitem kwargs "path" p) =
     ServerCodeCorrect.proxy_lightning_weather (setitem kwargs "path" p')).
Proof.
  cbv zeta. split; [|split; [|split; [|split]]].
  - rewrite correct_noaa_forwards. unfold forwarding_handler.
    by destruct (truthy (get kwargs "path" "")).
  - rewrite correct_aviation_forwards. unfold forwarding_handler.
    by destruct (truthy (get kwargs "path" "")).
  - rewrite correct_buoy_forwards. unfold forwarding_handler.
    by destruct (truthy (get kwargs "path" "")).
  - unfold ServerCodeCorrect.proxy_lightning_weather, forwarded_params.
    destruct (truthy (get kwargs "path" "")); cbn [negb]; [|done].
    cbv zeta. by destruct (_ <$> _).
  - intros p p' Hp Hp'. unfold ServerCodeCorrect.proxy_lightning_weather.
    rewrite !get_setitem, !filter_setitem.
    by destruct p, p'.
Qed.

Lemma server_code_correct_forwarding_witness :
  outbound_url (ServerCodeCorrect.proxy_buoy_weather
                  [("path", "data/realtime2/42001.txt"); ("format", "txt")])
    = Some "https://www.ndbc.noaa.gov/data/realtime2/42001.txt?format=txt" ∧
  ServerCodeCorrect.proxy_lightning_weather
    (setitem [("service", "WMS")] "path" "ows") =
  ServerCodeCorrect.proxy_lightning_weather
    (setitem [("service", "WMS")] "path" "anything").
Proof.
  split.
  - destruct (server_code_correct_forwarding
                [("path", "data/realtime2/42001.txt"); ("format", "txt")])
      as (_ & _ & Hbuoy & _).
    rewrite Hbuoy. reflexivity.
  - destruct (server_code_correct_forwarding [("service", "WMS")]) as (_ & _ & _ & _ & Hpath).
    by apply Hpath.
Defined.

(** Where a text occurs, lower-cased, in the requested URL: in the path
    or in one of the forwarded parameters. *)
Lemma py_in_lower_request_url (base_url needle : string) (kwargs : dict) :
  py_in needle (lower (get kwargs "path" "")) = true ∨
  (∃ param, param ∈ forwarded_params kwargs ∧ py_in needle (lower param) = true) →
  py_in needle (lower (request_url base_url kwargs)) = true.
Proof.
  intros Hwhere. unfold request_url, append_query.
  assert (Hpath : py_in needle (lower (get kwargs "path" "")) = true →
                  py_in needle (lower (base_url +:+
                                  with_leading_slash (get kwargs "path" ""))) = true).
  { intros Hin. rewrite lower_append. apply py_in_append_r.
    unfold with_leading_slash. destruct (startswith _ _); [done|].
    rewrite lower_append. by apply py_in_append_r. }
  destruct Hwhere as [Hin | (param & Hparam & Hin)].
  - destruct (forwarded_params kwargs); [by apply Hpath|].
    rewrite lower_append. by apply py_in_append_l, Hpath.
  - destruct (forwarded_params kwargs) as [|first rest] eqn:Hparams;
      [by apply elem_of_nil in Hparam|].
    rewrite !lower_append. do 2 apply py_in_append_r.
    apply (py_in_trans _ (lower param)); [done|].
    by apply py_in_lower, py_in_join.
Qed.

(** X16. The marine/radar handler of either variant labels its answer
    [image/png] as soon as the path or a forwarded parameter contains
    "wms" or "getmap" in any letter case, also when the request asks for
    capabilities or XML: a WMS GetCapabilities request is labelled
    [image/png]. *)
Theorem wms_or_getmap_is_labelled_png (kwargs : dict) (net : string → request_outcome)
    (needle : string) (upstream_status : Z) (response : string) :
  needle = "wms" ∨ needle = "getmap" →
  get kwargs "path" "" ≠ "" →
  py_in needle (lower (get kwargs "path" "")) = true ∨
  (∃ param, param ∈ forwarded_params kwargs ∧ py_in needle (lower param) = true) →
  net (request_url "https://nowcoast.noaa.gov" kwargs) = Returned upstream_status response →
  get (headers (run net (ServerCodeFixed.proxy_noaa_weather kwargs))) "Content-Type" ""
    = "image/png" ∧
  get (headers (run net (ServerCodeCorrect.proxy_noaa_weather kwargs))) "Content-Type" ""
    = "image/png".
Proof.
  intros Hneedle Hpath Hwhere Hnet.
  apply (py_in_lower_request_url "https://nowcoast.noaa.gov") in Hwhere.
  rewrite fixed_noaa_forwards, correct_noaa_forwards. unfold forwarding_handler.
  apply truthy_iff in Hpath. rewrite Hpath. cbn [run]. rewrite Hnet.
  cbn [headers get String.eqb].
  destruct Hneedle as [-> | ->]; rewrite Hwhere; by rewrite ?orb_true_r.
Qed.

Lemma wms_or_getmap_is_labelled_png_witness :
  get (headers (run (λ _, Returned 200 "<WMS_Capabilities/>")
                  (ServerCodeFixed.proxy_noaa_weather
                     [("path", "geoserver/ows"); ("service", "WMS");
                      ("request", "GetCapabilities")])))
      "Content-Type" "" = "image/png".
Proof.
  destruct (wms_or_getmap_is_labelled_png
              [("path", "geoserver/ows"); ("service", "WMS"); ("request", "GetCapabilities")]
              (λ _, Returned 200 "<WMS_Capabilities/>") "wms" 200 "<WMS_Capabilities/>")
    as [Hfixed _]; [by left | discriminate | | reflexivity | exact Hfixed].
  right. exists "service=WMS". split; [vm_compute; left | reflexivity].
Defined.

(** X17. The lightning handler of [server_code_fixed.py] labels its answer
    [image/png] as soon as the name or the value of an inbound parameter
    contains "getmap" in any letter case, and [application/xml] when no
    parameter comes in. *)
Theorem lightning_getmap_is_labelled_png (kwargs : dict) (net : string → request_outcome)
    (key value : string) (upstream_status : Z) (response : string) :
  (key, value) ∈ kwargs →
  py_in "getmap" (lower key) = true ∨ py_in "getmap" (lower value) = true →
  net ("https://nowcoast.noaa.gov/geoserver/observations/lightning_detection/ows"
         +:+ "?" +:+ join "&" ((λ kv, kv.1 +:+ "=" +:+ kv.2) <$> kwargs))
    = Returned upstream_status response →
  get (headers (run net (ServerCodeFixed.proxy_lightning_weather kwargs))) "Content-Type" ""
    = "image/png" ∧
  get (headers (run (λ _, Returned upstream_status response)
                  (ServerCodeFixed.proxy_lightning_weather []))) "Content-Type" ""
    = "application/xml".
Proof.
  intros Hin Hwhere Hnet. split; [|reflexivity].
  assert (Hparam : py_in "getmap" (lower (key +:+ "=" +:+ value)) = true).
  { rewrite !lower_append. destruct Hwhere as [Hkey | Hvalue].
    - by apply py_in_append_l.
    - by do 2 apply py_in_append_r. }
  assert (Hurl : py_in "getmap"
                   (lower ("https://nowcoast.noaa.gov/geoserver/observations/lightning_detection/ows"
                             +:+ "?" +:+ join "&" ((λ kv, kv.1 +:+ "=" +:+ kv.2) <$> kwargs)))
                 = true).
  { rewrite !lower_append. do 2 apply py_in_append_r.
    apply (py_in_trans _ (lower (key +:+ "=" +:+ value))); [done|].
    apply py_in_lower, py_in_join.
    apply (list_elem_of_fmap_2 (λ kv, kv.1 +:+ "=" +:+ kv.2) _ _ Hin). }
  unfold ServerCodeFixed.proxy_lightning_weather. cbv zeta.
  destruct kwargs as [|kv kwargs]; [by apply elem_of_nil in Hin|].
  rewrite fmap_cons in *. cbn [run]. by rewrite Hnet, Hurl.
Qed.

Lemma lightning_getmap_is_labelled_png_witness :
  get (headers (run (λ _, Returned 200 "PNG")
                  (ServerCodeFixed.proxy_lightning_weather
                     [("service", "WMS"); ("REQUEST", "GetMap")])))
      "Content-Type" "" = "image/png".
Proof.
  destruct (lightning_getmap_is_labelled_png [("service", "WMS"); ("REQUEST", "GetMap")]
              (λ _, Returned 200 "PNG") "REQUEST" "GetMap" 200 "PNG")
    as [Hpng _]; [right; left | by right | reflexivity | exact Hpng].
Defined.

(** X18. The two variants of the server code do the same on the marine/radar
    and aviation routes, and on the buoy route when no parameter besides
    [path] comes in: they request the same URL and answer with the same
    status, body and content type.  They differ in the origin they allow:
    any origin in [server_code_fixed.py], [http://localhost:8080] alone in
    [server_code_correct.py]. *)
Theorem variants_agree_up_to_cors (kwargs : dict) (net : string → request_outcome) :
  let agree (fixed correct : dict → io request_outcome HttpResponse) :=
    outbound_url (fixed kwargs) = outbound_url (correct kwargs) ∧
    status (run net (fixed kwargs)) = status (run net (correct kwargs)) ∧
    body (run net (fixed kwargs)) = body (run net (correct kwargs)) ∧
    get (headers (run net (fixed kwargs))) "Content-Type" "" =
      get (headers (run net (correct kwargs))) "Content-Type" "" ∧
    (status (run net (fixed kwargs)) = 200 →
     get (headers (run net (fixed kwargs))) "Access-Control-Allow-Origin" "" = "*" ∧
     get (headers (run net (correct kwargs))) "Access-Control-Allow-Origin" ""
       = "http://localhost:8080") in
  agree ServerCodeFixed.proxy_noaa_weather ServerCodeCorrect.proxy_noaa_weather ∧
  agree ServerCodeFixed.proxy_aviation_weather ServerCodeCorrect.proxy_aviation_weather ∧
  (forwarded_params kwargs = [] →
   agree ServerCodeFixed.proxy_buoy_weather ServerCodeCorrect.proxy_buoy_weather).
Proof.
  cbv zeta. split; [|split].
  - rewrite fixed_noaa_forwards, correct_noaa_forwards. unfold forwarding_handler.
    destruct (truthy (get kwargs "path" "")); cbn [run outbound_url];
      [destruct (net _)|]; by repeat split.
  - rewrite fixed_aviation_forwards, correct_aviation_forwards. unfold forwarding_handler.
    destruct (truthy (get kwargs "path" "")); cbn [run outbound_url];
      [destruct (net _)|]; by repeat split.
  - intros Hnone. rewrite correct_buoy_forwards.
    unfold forwarding_handler, request_url, append_query. rewrite Hnone.
    unfold ServerCodeFixed.proxy_buoy_weather, with_leading_slash.
    destruct (truthy (get kwargs "path" "")); cbn [negb run outbound_url];
      [|by repeat split].
    destruct (startswith (get kwargs "path" "") "/"); cbn [negb run outbound_url];
      destruct (net _); by repeat split.
Qed.

Lemma variants_agree_up_to_cors_witness :
  let kwargs := [("path", "data/realtime2/42001.txt")] in
  let net := λ _ : string, Returned 200 "#YY MM DD" in
  run net (ServerCodeFixed.proxy_buoy_weather kwargs) =
    mkHttpResponse 200 "#YY MM DD"
      [("Content-Type", "text/plain");
       ("Access-Control-Allow-Origin", "*");
       ("Access-Control-Allow-Methods", "GET, POST, OPTIONS");
       ("Access-Control-Allow-Headers", "Content-Type, Authorization, X-Requested-With")] ∧
  get (headers (run net (ServerCodeCorrect.proxy_buoy_weather kwargs)))
      "Access-Control-Allow-Origin" "" = "http://localhost:8080".
Proof.
  cbn zeta. split; [reflexivity|].
  destruct (variants_agree_up_to_cors [("path", "data/realtime2/42001.txt")]
              (λ _, Returned 200 "#YY MM DD")) as (_ & _ & Hbuoy).
  destruct (Hbuoy eq_refl) as (_ & _ & _ & _ & Hcors).
  by destruct (Hcors eq_refl) as [_ Horigin].
Defined.

End Forwarding.
